(** * go-shopify: OAuth URLs and HMAC verification (oauth.go)

    A shallow embedding of [oauth.go] and of the parts of the Go standard
    library it calls ([crypto/sha256], [crypto/hmac], [crypto/subtle],
    [encoding/hex], [encoding/base64], [net/url], [net/http], [io/ioutil],
    [sort], [strings]), followed by the properties of the verifiers.

    Go strings are byte sequences: they are modelled by [string] (a list of
    8-bit [ascii]).  A [[]byte] is a [list ascii]; the conversions
    [[]byte(s)] and [string(b)] are [list_ascii_of_string] and
    [string_of_list_ascii].  Unsigned 32-bit and 8-bit integers are [N] with
    the wrap-around written out.

    The library functions follow the Go sources: in particular
    [hex.DecodeString] returns the bytes decoded before an error (as it does
    since Go 1.10) and [url.ParseQuery] skips a pair that holds a ';' (as it
    does since Go 1.17).  A run-time panic is [None]; an [error] result is a
    value of the type [error] below, [None] standing for [nil]. *)

From Stdlib Require Import NArith Ascii String List.
From stdpp Require Import gmap strings list sorting pretty.

Local Open Scope string_scope.
Local Open Scope list_scope.
Local Open Scope N_scope.

Abbreviation byte := ascii (only parsing).
Abbreviation bytes := (list ascii) (only parsing).

(** [[]byte(s)] and [string(b)]. *)
Definition bytes_of (s : string) : bytes := list_ascii_of_string s.
Definition string_of (b : bytes) : string := string_of_list_ascii b.

Definition byte_of_N (n : N) : byte := ascii_of_N (n mod 256).

(** ** crypto/sha256 (FIPS 180-4), after [sha256block.go] *)

Module sha256.

Definition Size : nat := 32.
Definition BlockSize : nat := 64.

Definition u32 (x : N) : N := x mod 2 ^ 32.
Definition add32 (x y : N) : N := u32 (x + y).
Definition not32 (x : N) : N := N.lxor x 0xffffffff.
(** [bits.RotateLeft32(x, -n)] *)
Definition rotr (x n : N) : N :=
  N.lor (N.shiftr x n) (u32 (N.shiftl x (32 - n))).

Definition _K : list N :=
  [ 0x428A2F98; 0x71374491; 0xB5C0FBCF; 0xE9B5DBA5;
    0x3956C25B; 0x59F111F1; 0x923F82A4; 0xAB1C5ED5;
    0xD807AA98; 0x12835B01; 0x243185BE; 0x550C7DC3;
    0x72BE5D74; 0x80DEB1FE; 0x9BDC06A7; 0xC19BF174;
    0xE49B69C1; 0xEFBE4786; 0x0FC19DC6; 0x240CA1CC;
    0x2DE92C6F; 0x4A7484AA; 0x5CB0A9DC; 0x76F988DA;
    0x983E5152; 0xA831C66D; 0xB00327C8; 0xBF597FC7;
    0xC6E00BF3; 0xD5A79147; 0x06CA6351; 0x14292967;
    0x27B70A85; 0x2E1B2138; 0x4D2C6DFC; 0x53380D13;
    0x650A7354; 0x766A0ABB; 0x81C2C92E; 0x92722C85;
    0xA2BFE8A1; 0xA81A664B; 0xC24B8B70; 0xC76C51A3;
    0xD192E819; 0xD6990624; 0xF40E3585; 0x106AA070;
    0x19A4C116; 0x1E376C08; 0x2748774C; 0x34B0BCB5;
    0x391C0CB3; 0x4ED8AA4A; 0x5B9CCA4F; 0x682E6FF3;
    0x748F82EE; 0x78A5636F; 0x84C87814; 0x8CC70208;
    0x90BEFFFA; 0xA4506CEB; 0xBEF9A3F7; 0xC67178F2 ].

(** The eight chaining words [h0 .. h7]. *)
Definition state : Type := N * N * N * N * N * N * N * N.

Definition init : state :=
  (0x6A09E667, 0xBB67AE85, 0x3C6EF372, 0xA54FF53A,
   0x510E527F, 0x9B05688C, 0x1F83D9AB, 0x5BE0CD19).

(** [uint32(p[j])<<24 | uint32(p[j+1])<<16 | uint32(p[j+2])<<8 | uint32(p[j+3])] *)
Definition be32 (b0 b1 b2 b3 : byte) : N :=
  N.lor (N.lor (N.lor (N.shiftl (N_of_ascii b0) 24) (N.shiftl (N_of_ascii b1) 16))
               (N.shiftl (N_of_ascii b2) 8)) (N_of_ascii b3).

(** The first sixteen words of the message schedule, read from a block. *)
Fixpoint words (p : bytes) : list N :=
  match p with
  | b0 :: b1 :: b2 :: b3 :: p' => be32 b0 b1 b2 b3 :: words p'
  | _ => []
  end.

(** [for i := 16; i < 64; i++ { w[i] = t1 + w[i-7] + t2 + w[i-16] }],
    [n] iterations starting at [i = length w]. *)
Fixpoint schedule (n : nat) (w : list N) : list N :=
  match n with
  | O => w
  | S n' =>
      let i := length w in
      let v1 := nth (i - 2) w 0 in
      let t1 := N.lxor (N.lxor (rotr v1 17) (rotr v1 19)) (N.shiftr v1 10) in
      let v2 := nth (i - 15) w 0 in
      let t2 := N.lxor (N.lxor (rotr v2 7) (rotr v2 18)) (N.shiftr v2 3) in
      schedule n'
        (w ++ [add32 (add32 (add32 t1 (nth (i - 7) w 0)) t2) (nth (i - 16) w 0)])
  end.

(** One iteration of the 64-round loop. *)
Definition round (s : state) (kw : N * N) : state :=
  let '(a, b, c, d, e, f, g, h) := s in
  let '(k, w) := kw in
  let t1 :=
    add32 (add32 (add32 (add32 h
      (N.lxor (N.lxor (rotr e 6) (rotr e 11)) (rotr e 25)))
      (N.lxor (N.land e f) (N.land (not32 e) g))) k) w in
  let t2 :=
    add32 (N.lxor (N.lxor (rotr a 2) (rotr a 13)) (rotr a 22))
          (N.lxor (N.lxor (N.land a b) (N.land a c)) (N.land b c)) in
  (add32 t1 t2, a, b, c, add32 d t1, e, f, g).

(** The body of [blockGeneric]'s outer loop on one 64-byte chunk. *)
Definition compress (hs : state) (chunk : bytes) : state :=
  let w := schedule 48 (words chunk) in
  let '(a, b, c, d, e, f, g, h) := fold_left round (combine _K w) hs in
  let '(h0, h1, h2, h3, h4, h5, h6, h7) := hs in
  (add32 h0 a, add32 h1 b, add32 h2 c, add32 h3 d,
   add32 h4 e, add32 h5 f, add32 h6 g, add32 h7 h).

(** [for len(p) >= chunk { ...; p = p[chunk:] }], [n] chunks. *)
Fixpoint block (n : nat) (hs : state) (p : bytes) : state :=
  match n with
  | O => hs
  | S n' => block n' (compress hs (take BlockSize p)) (drop BlockSize p)
  end.

(** [binary.BigEndian.PutUint32] and [PutUint64]. *)
Definition put32 (x : N) : bytes :=
  [byte_of_N (N.shiftr x 24); byte_of_N (N.shiftr x 16);
   byte_of_N (N.shiftr x 8); byte_of_N x].
Definition put64 (x : N) : bytes :=
  put32 (N.shiftr x 32) ++ put32 x.

(** The padding appended by [checkSum]: a 1 bit, zero bits up to 56 bytes
    mod 64, and the length in bits as a big-endian [uint64]. *)
Definition padding (len : nat) : bytes :=
  let r := (len mod 64)%nat in
  let t := if (r <? 56)%nat then (56 - r)%nat else (64 + 56 - r)%nat in
  byte_of_N 0x80 :: replicate (t - 1) (byte_of_N 0)
    ++ put64 (N.shiftl (N.of_nat len) 3 mod 2 ^ 64).

(** [sha256.Sum256], equivalently [New(); Write(data); Sum(nil)]. *)
Definition Sum256 (data : bytes) : bytes :=
  let p := data ++ padding (length data) in
  let '(h0, h1, h2, h3, h4, h5, h6, h7) :=
    block (length p / BlockSize) init p in
  put32 h0 ++ put32 h1 ++ put32 h2 ++ put32 h3 ++
  put32 h4 ++ put32 h5 ++ put32 h6 ++ put32 h7.

End sha256.

(** ** Go [error] values

    The errors this file's callers can see: the typed errors of
    [encoding/hex], [encoding/base64] and [net/url], the message-only errors
    made by [errors.New] and [fmt.Errorf], and whatever error a request body
    reader reports. *)
Inductive error : Type :=
  | hex_InvalidByteError (b : byte)
  | hex_ErrLength
  | base64_CorruptInputError   (* the input offset it carries is not modelled *)
  | url_EscapeError (s : string)
  | url_ParseError (msg : string)
  | errorString (msg : string)
  | io_Error (msg : string).

(** ** crypto/hmac over SHA-256 (RFC 2104), after [hmac.go] *)

Module hmac.

(** The [hmac] object: the two pads and the bytes written so far to the
    inner hash ([inner] starts with [ipad], as [New] writes it). *)
Record t : Type := mk { opad : bytes; ipad : bytes; inner : bytes }.

Definition xor_pad (c : N) (key : bytes) : bytes :=
  map (fun b => byte_of_N (N.lxor (N_of_ascii b) c)) key.

(** [hmac.New(sha256.New, key)] *)
Definition New (key : bytes) : t :=
  let key := if (sha256.BlockSize <? length key)%nat
             then sha256.Sum256 key else key in
  let padded := key ++ replicate (sha256.BlockSize - length key) (byte_of_N 0) in
  let ipad := xor_pad 0x36 padded in
  {| opad := xor_pad 0x5c padded; ipad := ipad; inner := ipad |}.

(** [mac.Write(p)] *)
Definition Write (h : t) (p : bytes) : t :=
  {| opad := opad h; ipad := ipad h; inner := inner h ++ p |}.

(** [mac.Sum(in)] *)
Definition Sum (h : t) (b : bytes) : bytes :=
  b ++ sha256.Sum256 (opad h ++ sha256.Sum256 (inner h)).

End hmac.

(** HMAC-SHA256 of [msg] under [key], as every verifier computes it:
    [mac := hmac.New(sha256.New, key); mac.Write(msg); mac.Sum(nil)]. *)
Definition hmac_sha256 (key msg : bytes) : bytes :=
  hmac.Sum (hmac.Write (hmac.New key) msg) [].

(** ** crypto/subtle and [hmac.Equal] *)

Module subtle.

(** What a run lets an observer of its timing see: the outcome of each
    conditional branch and the index of each slice element it reads. *)
Inductive leak : Type :=
  | leak_branch (taken : bool)
  | leak_index (i : nat).

(** [int((uint32(x^y) - 1) >> 31)] *)
Definition ConstantTimeByteEq (x y : N) : N :=
  N.shiftr ((N.lxor x y + (2 ^ 32 - 1)) mod 2 ^ 32) 31.

(** [for i := 0; i < len(x); i++ { v |= x[i] ^ y[i] }], [n] iterations
    starting at index [i], with the leakage of the run.  An index out of
    range is a run-time panic, [None]. *)
Fixpoint loop (n i : nat) (x y : bytes) (v : N) : option (N * list leak) :=
  match n with
  | O => Some (v, [leak_branch false])
  | S n' =>
      match x !! i, y !! i with
      | Some a, Some b =>
          match loop n' (S i) x y (N.lor v (N.lxor (N_of_ascii a) (N_of_ascii b))) with
          | Some (v', t) => Some (v', leak_branch true :: leak_index i :: t)
          | None => None
          end
      | _, _ => None
      end
  end.

(** [subtle.ConstantTimeCompare]: the returned [int], together with the
    leakage of the run. *)
Definition ConstantTimeCompare (x y : bytes) : option (N * list leak) :=
  if negb (length x =? length y)%nat then Some (0, [leak_branch true])
  else
    match loop (length x) O x y 0 with
    | Some (v, t) => Some (ConstantTimeByteEq v 0, leak_branch false :: t)
    | None => None
    end.

(** The leakage of [n] iterations of the loop from index [i], and of a
    comparison of slices of lengths [n] and [m]. *)
Fixpoint loop_leakage (n i : nat) : list leak :=
  match n with
  | O => [leak_branch false]
  | S n' => leak_branch true :: leak_index i :: loop_leakage n' (S i)
  end.

Definition leakage (n m : nat) : list leak :=
  if negb (n =? m)%nat then [leak_branch true]
  else leak_branch false :: loop_leakage n O.

End subtle.

(** [hmac.Equal(mac1, mac2)], [None] if the comparison panics. *)
Definition hmac_Equal_run (mac1 mac2 : bytes) : option bool :=
  match subtle.ConstantTimeCompare mac1 mac2 with
  | Some (r, _) => Some (r =? 1)
  | None => None
  end.

(** [hmac.Equal] as the verifiers use it (a panic, were there one, would not
    produce [true]). *)
Definition hmac_Equal (mac1 mac2 : bytes) : bool :=
  match hmac_Equal_run mac1 mac2 with
  | Some b => b
  | None => false
  end.

(** ** encoding/hex *)

Module hex.

Definition hextable : bytes := bytes_of "0123456789abcdef".

Definition digit (n : N) : byte := nth (N.to_nat n) hextable "0"%char.

(** [hex.Encode]: [dst[j] = hextable[v>>4]; dst[j+1] = hextable[v&0x0f]]. *)
Fixpoint Encode (src : bytes) : bytes :=
  match src with
  | [] => []
  | v :: src' =>
      digit (N.shiftr (N_of_ascii v) 4) :: digit (N.land (N_of_ascii v) 0x0f)
        :: Encode src'
  end.

Definition EncodeToString (src : bytes) : string := string_of (Encode src).

(** [reverseHexTable]: the value of a hexadecimal digit, either case. *)
Definition fromHexChar (c : byte) : option N :=
  let n := N_of_ascii c in
  if (48 <=? n) && (n <=? 57) then Some (n - 48)
  else if (97 <=? n) && (n <=? 102) then Some (n - 97 + 10)
  else if (65 <=? n) && (n <=? 70) then Some (n - 65 + 10)
  else None.

(** [hex.Decode]: the bytes decoded before the first error, and the error. *)
Fixpoint Decode (src : bytes) : bytes * option error :=
  match src with
  | [] => ([], None)
  | [p] =>
      match fromHexChar p with
      | None => ([], Some (hex_InvalidByteError p))
      | Some _ => ([], Some hex_ErrLength)
      end
  | p :: q :: src' =>
      match fromHexChar p, fromHexChar q with
      | None, _ => ([], Some (hex_InvalidByteError p))
      | Some _, None => ([], Some (hex_InvalidByteError q))
      | Some a, Some b =>
          let '(dst, err) := Decode src' in
          (byte_of_N (N.lor (N.shiftl a 4) b) :: dst, err)
      end
  end.

(** [hex.DecodeString]: on malformed input it returns the bytes decoded
    before the error, along with the error. *)
Definition DecodeString (s : string) : bytes * option error :=
  Decode (bytes_of s).

End hex.

(** ** encoding/base64, [StdEncoding] (padded, not strict) *)

Module base64.

Definition encodeStd : bytes :=
  bytes_of "ABCDEFGHIJKLMNOPQRSTUVWXYZabcdefghijklmnopqrstuvwxyz0123456789+/".

Definition enc (n : N) : byte := nth (N.to_nat n) encodeStd "A"%char.

Definition sextet (val shift : N) : byte :=
  enc (N.land (N.shiftr val shift) 0x3f).

(** [Encoding.Encode]: three bytes to four characters, the remainder
    padded with '='. *)
Fixpoint Encode (src : bytes) : bytes :=
  match src with
  | [] => []
  | [a] =>
      let val := N.shiftl (N_of_ascii a) 16 in
      [sextet val 18; sextet val 12; "="%char; "="%char]
  | [a; b] =>
      let val := N.lor (N.shiftl (N_of_ascii a) 16) (N.shiftl (N_of_ascii b) 8) in
      [sextet val 18; sextet val 12; sextet val 6; "="%char]
  | a :: b :: c :: src' =>
      let val := N.lor (N.lor (N.shiftl (N_of_ascii a) 16)
                              (N.shiftl (N_of_ascii b) 8)) (N_of_ascii c) in
      sextet val 18 :: sextet val 12 :: sextet val 6 :: sextet val 0
        :: Encode src'
  end.

Definition EncodeToString (src : bytes) : string := string_of (Encode src).

(** [decodeMap]: the 6-bit value of an alphabet character. *)
Definition decodeMap (c : byte) : option N :=
  let n := N_of_ascii c in
  if (65 <=? n) && (n <=? 90) then Some (n - 65)
  else if (97 <=? n) && (n <=? 122) then Some (n - 97 + 26)
  else if (48 <=? n) && (n <=? 57) then Some (n - 48 + 52)
  else if n =? 43 then Some 62
  else if n =? 47 then Some 63
  else None.

Definition is_newline (c : byte) : bool :=
  let n := N_of_ascii c in (n =? 10) || (n =? 13).

(** [val := dbuf[0]<<18 | dbuf[1]<<12 | dbuf[2]<<6 | dbuf[3]] *)
Definition quantum (d0 d1 d2 d3 : N) : N :=
  N.lor (N.lor (N.lor (N.shiftl d0 18) (N.shiftl d1 12)) (N.shiftl d2 6)) d3.

(** [decodeQuantum] repeated over the input, newlines already skipped:
    full quanta of four alphabet characters, then at most one quantum
    closed by "=" or "==", and nothing after it. *)
Fixpoint decode (src : bytes) : option bytes :=
  match src with
  | [] => Some []
  | a :: b :: c :: d :: src' =>
      match decodeMap a, decodeMap b with
      | Some d0, Some d1 =>
          match decodeMap c, decodeMap d with
          | Some d2, Some d3 =>
              let val := quantum d0 d1 d2 d3 in
              match decode src' with
              | Some dst =>
                  Some (byte_of_N (N.shiftr val 16) :: byte_of_N (N.shiftr val 8)
                          :: byte_of_N val :: dst)
              | None => None
              end
          | Some d2, None =>
              if Ascii.eqb d "="%char && bool_decide (src' = []) then
                let val := quantum d0 d1 d2 0 in
                Some [byte_of_N (N.shiftr val 16); byte_of_N (N.shiftr val 8)]
              else None
          | None, _ =>
              if Ascii.eqb c "="%char && Ascii.eqb d "="%char
                 && bool_decide (src' = []) then
                let val := quantum d0 d1 0 0 in
                Some [byte_of_N (N.shiftr val 16)]
              else None
          end
      | _, _ => None
      end
  | _ => None
  end.

(** [StdEncoding.DecodeString]: '\r' and '\n' are ignored; malformed input
    is a [CorruptInputError] (the partial output Go returns with it is not
    modelled: the caller here returns on the error). *)
Definition DecodeString (s : string) : bytes + error :=
  match decode (filter (fun c => is_newline c = false) (bytes_of s)) with
  | Some dst => inl dst
  | None => inr base64_CorruptInputError
  end.

End base64.

(** ** strings *)

Module strings.

(** [strings.Cut(s, sep)] for a one-byte separator: the text before and
    after the first [sep], and whether [sep] was found. *)
Fixpoint Cut (s : string) (sep : byte) : string * string * bool :=
  match s with
  | "" => ("", "", false)
  | String c s' =>
      if Ascii.eqb c sep then ("", s', true)
      else let '(before, after, found) := Cut s' sep in
           (String c before, after, found)
  end.

(** [strings.Split(s, sep)] for a one-byte separator. *)
Fixpoint Split (s : string) (sep : byte) : list string :=
  match s with
  | "" => [""]
  | String c s' =>
      match Split s' sep with
      | [] => [String c ""]
      | w :: ws => if Ascii.eqb c sep then "" :: w :: ws
                   else String c w :: ws
      end
  end.

Definition ContainsByte (s : string) (c : byte) : bool :=
  existsb (Ascii.eqb c) (bytes_of s).

Fixpoint HasPrefix (s prefix : string) : bool :=
  match prefix, s with
  | "", _ => true
  | String p prefix', String c s' => Ascii.eqb c p && HasPrefix s' prefix'
  | String _ _, "" => false
  end.

(** [strings.Index(s, sub)], [None] for -1. *)
Fixpoint Index (s sub : string) : option nat :=
  if HasPrefix s sub then Some O
  else match s with
       | "" => None
       | String _ s' => S <$> Index s' sub
       end.

(** [strings.LastIndex(s, string(c))], [None] for -1. *)
Fixpoint LastIndexByte (s : string) (c : byte) : option nat :=
  match s with
  | "" => None
  | String d s' =>
      match LastIndexByte s' c with
      | Some i => Some (S i)
      | None => if Ascii.eqb d c then Some O else None
      end
  end.

Definition Count (s : string) (c : byte) : nat :=
  length (filter (fun d => d = c) (bytes_of s)).

(** [s[:i]] and [s[i:]] *)
Definition to (i : nat) (s : string) : string := string_of (take i (bytes_of s)).
Definition from (i : nat) (s : string) : string := string_of (drop i (bytes_of s)).

(** [strings.Join(elems, sep)] *)
Fixpoint Join (elems : list string) (sep : string) : string :=
  match elems with
  | [] => ""
  | [e] => e
  | e :: elems' => e +:+ sep +:+ Join elems' sep
  end.

(** [strings.ToLower] on ASCII letters (all a URL scheme can hold). *)
Definition ToLower (s : string) : string :=
  string_of (map (fun c => let n := N_of_ascii c in
                           if (65 <=? n) && (n <=? 90) then ascii_of_N (n + 32) else c)
                 (bytes_of s)).

End strings.

(** [sort.Strings]: ascending in the byte-wise order of Go's [<] on strings. *)
Definition sort_Strings (l : list string) : list string := merge_sort String.le l.

(** ** net/url *)

Module url.

(** The escaping modes of [url.go]. *)
Inductive encoding : Type :=
  | encodePath | encodePathSegment | encodeHost | encodeZone
  | encodeUserPassword | encodeQueryComponent | encodeFragment.

Definition isalnum (c : byte) : bool :=
  let n := N_of_ascii c in
  ((97 <=? n) && (n <=? 122)) || ((65 <=? n) && (n <=? 90))
  || ((48 <=? n) && (n <=? 57)).

Definition oneof (c : byte) (set : string) : bool := strings.ContainsByte set c.

Definition dquote : byte := ascii_of_N 34.

(** [shouldEscape(c, mode)] *)
Definition shouldEscape (c : byte) (mode : encoding) : bool :=
  if isalnum c then false
  else if match mode with encodeHost | encodeZone => true | _ => false end
          && (oneof c "!$&'()*+,;=:[]<>" || Ascii.eqb c dquote) then false
  else if oneof c "-_.~" then false
  else if oneof c "$&+,/:;=?@" then
    match mode with
    | encodePath => Ascii.eqb c "?"
    | encodePathSegment => oneof c "/;,?"
    | encodeUserPassword => oneof c "@/?:"
    | encodeQueryComponent => true
    | encodeFragment => false
    | encodeHost | encodeZone => true
    end
  else if match mode with encodeFragment => true | _ => false end
          && oneof c "!()*" then false
  else true.

Definition upperhex : bytes := bytes_of "0123456789ABCDEF".
Definition hexdigit (n : N) : byte := nth (N.to_nat n) upperhex "0"%char.

(** [escape(s, mode)] *)
Fixpoint escape (s : string) (mode : encoding) : string :=
  match s with
  | "" => ""
  | String c s' =>
      if shouldEscape c mode then
        if Ascii.eqb c " " && match mode with encodeQueryComponent => true | _ => false end
        then String "+" (escape s' mode)
        else String "%" (String (hexdigit (N.shiftr (N_of_ascii c) 4))
               (String (hexdigit (N.land (N_of_ascii c) 15)) (escape s' mode)))
      else String c (escape s' mode)
  end.

(** [url.QueryEscape] *)
Definition QueryEscape (s : string) : string := escape s encodeQueryComponent.

Definition ishex (c : byte) : bool :=
  match hex.fromHexChar c with Some _ => true | None => false end.
Definition unhex (c : byte) : N :=
  match hex.fromHexChar c with Some n => n | None => 0 end.

(** [unescape(s, mode)]: the decoded string, or the first error met. *)
Fixpoint unescape (s : string) (mode : encoding) : string + error :=
  match s with
  | "" => inl ""
  | String c s' =>
      if Ascii.eqb c "%" then
        match s' with
        | String h1 (String h2 s'') =>
            let esc := String c (String h1 (String h2 "")) in
            let v := byte_of_N (N.lor (N.shiftl (unhex h1) 4) (unhex h2)) in
            if negb (ishex h1 && ishex h2) then inr (url_EscapeError esc)
            else if match mode with encodeHost => true | _ => false end
                    && (unhex h1 <? 8) && negb (String.eqb esc "%25")
            then inr (url_EscapeError esc)
            else if match mode with encodeZone => true | _ => false end
                    && negb (String.eqb esc "%25") && negb (Ascii.eqb v " ")
                    && shouldEscape v encodeHost
            then inr (url_EscapeError esc)
            else match unescape s'' mode with
                 | inl r => inl (String v r)
                 | inr e => inr e
                 end
        | _ => inr (url_EscapeError s)
        end
      else if match mode with encodeHost | encodeZone => true | _ => false end
              && (N_of_ascii c <? 128) && shouldEscape c mode
      then inr (url_ParseError "invalid character in host name")
      else
        let c' := if Ascii.eqb c "+"
                     && match mode with encodeQueryComponent => true | _ => false end
                  then " "%char else c in
        match unescape s' mode with
        | inl r => inl (String c' r)
        | inr e => inr e
        end
  end.

(** [url.QueryUnescape]: on error the string returned is empty. *)
Definition QueryUnescape (s : string) : string * option error :=
  match unescape s encodeQueryComponent with
  | inl r => (r, None)
  | inr e => ("", Some e)
  end.

(** [url.Values], a [map[string][]string]. *)
Abbreviation Values := (gmap string (list string)).

Definition Get (v : Values) (key : string) : string :=
  match v !! key with
  | Some (x :: _) => x
  | _ => ""
  end.

Definition Set_ (v : Values) (key value : string) : Values := <[key := [value]]> v.

Definition Add (v : Values) (key value : string) : Values :=
  <[key := default [] (v !! key) ++ [value]]> v.

Definition Del (v : Values) (key : string) : Values := delete key v.

(** One step of [Encode]'s inner loop on the [strings.Builder]. *)
Definition write_pair (keyEscaped : string) (buf value : string) : string :=
  (if bool_decide (buf = "") then buf else buf +:+ "&")
    +:+ keyEscaped +:+ "=" +:+ QueryEscape value.

(** [Values.Encode]: "URL encoded" form sorted by key.  The keys are
    collected by ranging over the map, in whatever order, and sorted. *)
Definition Encode (v : Values) : string :=
  let keys := sort_Strings (map fst (map_to_list v)) in
  fold_left (fun buf k => fold_left (write_pair (QueryEscape k)) (default [] (v !! k)) buf)
            keys "".

(** The body of [parseQuery]'s loop on one '&'-separated piece: the
    key and value it adds, or nothing if the piece is skipped. *)
Definition parsePair (piece : string) : option (string * string) :=
  if strings.ContainsByte piece ";" then None
  else if bool_decide (piece = "") then None
  else
    let '(key, value, _) := strings.Cut piece "=" in
    match QueryUnescape key, QueryUnescape value with
    | (key, None), (value, None) => Some (key, value)
    | _, _ => None
    end.

(** The key/value pairs of a raw query, in the order they are written. *)
Definition pairs (query : string) : list (string * string) :=
  omap parsePair (strings.Split query "&").

(** [url.ParseQuery], without the error (no caller here reads it):
    [m[key] = append(m[key], value)] for each pair in turn. *)
Definition ParseQuery (query : string) : Values :=
  fold_left (fun m kv => Add m kv.1 kv.2) (pairs query) ∅.

End url.

(** *** [url.URL], [url.Parse] and [URL.String] *)

Module URL.

Import url.

(** [url.Userinfo] *)
Record Userinfo : Type :=
  mkUser { username : string; password : string; passwordSet : bool }.

(** [url.URL] *)
Record t : Type := mk {
  Scheme : string;
  Opaque : string;
  User : option Userinfo;
  Host : string;
  Path : string;
  RawPath : string;
  OmitHost : bool;
  ForceQuery : bool;
  RawQuery : string;
  Fragment : string;
  RawFragment : string
}.

Definition empty : t := mk "" "" None "" "" "" false false "" "" "".

(** [u.Path = p] and [u.RawQuery = q] *)
Definition set_Path (u : t) (p : string) : t :=
  mk (Scheme u) (Opaque u) (User u) (Host u) p (RawPath u)
     (OmitHost u) (ForceQuery u) (RawQuery u) (Fragment u) (RawFragment u).
Definition set_RawQuery (u : t) (q : string) : t :=
  mk (Scheme u) (Opaque u) (User u) (Host u) (Path u) (RawPath u)
     (OmitHost u) (ForceQuery u) q (Fragment u) (RawFragment u).

(** [u.Query()]: [ParseQuery(u.RawQuery)] with the error dropped. *)
Definition Query (u : t) : Values := ParseQuery (RawQuery u).

Definition isalpha (c : byte) : bool :=
  let n := N_of_ascii c in
  ((97 <=? n) && (n <=? 122)) || ((65 <=? n) && (n <=? 90)).
Definition isdigit (c : byte) : bool :=
  let n := N_of_ascii c in (48 <=? n) && (n <=? 57).

(** [getScheme]: [first] tells whether the scan is still at index 0. *)
Fixpoint scanScheme (first : bool) (s : string) : option (option (string * string)) :=
  match s with
  | "" => Some None
  | String c s' =>
      if isalpha c then
        match scanScheme false s' with
        | Some (Some (scheme, rest)) => Some (Some (String c scheme, rest))
        | r => r
        end
      else if isdigit c || oneof c "+-." then
        if first then Some None
        else match scanScheme false s' with
             | Some (Some (scheme, rest)) => Some (Some (String c scheme, rest))
             | r => r
             end
      else if Ascii.eqb c ":" then
        if first then None else Some (Some ("", s'))
      else Some None
  end.

Definition getScheme (rawURL : string) : (string * string) + error :=
  match scanScheme true rawURL with
  | None => inr (url_ParseError "missing protocol scheme")
  | Some None => inl ("", rawURL)
  | Some (Some r) => inl r
  end.

Definition validOptionalPort (port : string) : bool :=
  match port with
  | "" => true
  | String c digits => Ascii.eqb c ":" && forallb isdigit (bytes_of digits)
  end.

Definition validUserinfo (s : string) : bool :=
  forallb (fun c => isalnum c || oneof c "-._:~!$&'()*+,;=%@") (bytes_of s).

Definition parseHost (host : string) : string + error :=
  let bracket :=
    if strings.HasPrefix host "[" then
      match strings.LastIndexByte host "]" with
      | None => Some (inr (url_ParseError "missing ']' in host"))
      | Some i =>
          if negb (validOptionalPort (strings.from (S i) host))
          then Some (inr (url_ParseError "invalid port after host"))
          else
            match strings.Index (strings.to i host) "%25" with
            | Some zone =>
                Some
                  match unescape (strings.to zone host) encodeHost with
                  | inr e => inr e
                  | inl host1 =>
                      match unescape (strings.to (i - zone) (strings.from zone host))
                                     encodeZone with
                      | inr e => inr e
                      | inl host2 =>
                          match unescape (strings.from i host) encodeHost with
                          | inr e => inr e
                          | inl host3 => inl (host1 +:+ host2 +:+ host3)
                          end
                      end
                  end
            | None => None
            end
      end
    else
      match strings.LastIndexByte host ":" with
      | Some i =>
          if negb (validOptionalPort (strings.from i host))
          then Some (inr (url_ParseError "invalid port after host"))
          else None
      | None => None
      end in
  match bracket with
  | Some r => r
  | None => unescape host encodeHost
  end.

Definition parseAuthority (authority : string) : (option Userinfo * string) + error :=
  let i := strings.LastIndexByte authority "@" in
  match parseHost (match i with
                   | None => authority
                   | Some i => strings.from (S i) authority
                   end) with
  | inr e => inr e
  | inl host =>
      match i with
      | None => inl (None, host)
      | Some i =>
          let userinfo := strings.to i authority in
          if negb (validUserinfo userinfo)
          then inr (url_ParseError "net/url: invalid userinfo")
          else if negb (strings.ContainsByte userinfo ":") then
            match unescape userinfo encodeUserPassword with
            | inr e => inr e
            | inl name => inl (Some (mkUser name "" false), host)
            end
          else
            let '(name, pass, _) := strings.Cut userinfo ":" in
            match unescape name encodeUserPassword, unescape pass encodeUserPassword with
            | inl name, inl pass => inl (Some (mkUser name pass true), host)
            | inr e, _ => inr e
            | _, inr e => inr e
            end
      end
  end.

(** [u.setPath(p)]: the decoded path, and the raw one kept only when the
    default encoding of the decoded path differs from it. *)
Definition setPath (p : string) : (string * string) + error :=
  match unescape p encodePath with
  | inr e => inr e
  | inl path =>
      inl (path, if String.eqb p (escape path encodePath) then "" else p)
  end.

Definition stringContainsCTLByte (s : string) : bool :=
  existsb (fun c => (N_of_ascii c <? 32) || (N_of_ascii c =? 127)) (bytes_of s).

(** [parse(rawURL, false)], the URL without its fragment. *)
Definition parse (rawURL : string) : t + error :=
  if stringContainsCTLByte rawURL
  then inr (url_ParseError "net/url: invalid control character in URL")
  else if String.eqb rawURL "*"
  then inl (set_Path empty "*")
  else
    match getScheme rawURL with
    | inr e => inr e
    | inl (scheme, rest) =>
        let scheme := strings.ToLower scheme in
        let '(rest, rawQuery, forceQuery) :=
          if (strings.Count rest "?" =? 1)%nat
             && bool_decide (strings.LastIndexByte rest "?" = Some (String.length rest - 1)%nat)
          then (strings.to (String.length rest - 1) rest, "", true)
          else let '(before, after, _) := strings.Cut rest "?" in
               (before, after, false) in
        let rooted := strings.HasPrefix rest "/" in
        if negb rooted && negb (String.eqb scheme "") then
          inl (mk scheme rest None "" "" "" false forceQuery rawQuery "" "")
        else if negb rooted
                && strings.ContainsByte (strings.Cut rest "/").1.1 ":"
        then inr (url_ParseError "first path segment in URL cannot contain colon")
        else
          let auth :=
            if (negb (String.eqb scheme "") || negb (strings.HasPrefix rest "///"))
               && strings.HasPrefix rest "//"
            then
              let authority := strings.from 2 rest in
              let '(authority, rest) :=
                match strings.Index authority "/" with
                | Some i => (strings.to i authority, strings.from i authority)
                | None => (authority, "")
                end in
              match parseAuthority authority with
              | inr e => inr e
              | inl (user, host) => inl (user, host, false, rest)
              end
            else inl (None, "", negb (String.eqb scheme "") && rooted, rest) in
          match auth with
          | inr e => inr e
          | inl (user, host, omitHost, rest) =>
              match setPath rest with
              | inr e => inr e
              | inl (path, rawPath) =>
                  inl (mk scheme "" user host path rawPath omitHost
                          forceQuery rawQuery "" "")
              end
          end
    end.

(** [url.Parse]: [parse] on the part before '#', then [setFragment]. *)
Definition Parse (rawURL : string) : t + error :=
  let '(u, frag, _) := strings.Cut rawURL "#" in
  match parse u with
  | inr e => inr e
  | inl url =>
      if String.eqb frag "" then inl url
      else
        match unescape frag encodeFragment with
        | inr e => inr e
        | inl f =>
            inl (mk (Scheme url) (Opaque url) (User url) (Host url) (Path url)
                    (RawPath url) (OmitHost url) (ForceQuery url) (RawQuery url) f
                    (if String.eqb frag (escape f encodeFragment) then "" else frag))
        end
  end.

Definition validEncoded (s : string) (mode : encoding) : bool :=
  forallb (fun c => oneof c "!$&'()*+,;=:@[]%" || negb (shouldEscape c mode))
          (bytes_of s).

(** [u.EscapedPath()] *)
Definition EscapedPath (u : t) : string :=
  let raw :=
    if negb (String.eqb (RawPath u) "") && validEncoded (RawPath u) encodePath then
      match unescape (RawPath u) encodePath with
      | inl p => String.eqb p (Path u)
      | inr _ => false
      end
    else false in
  if raw then RawPath u
  else if String.eqb (Path u) "*" then "*"
  else escape (Path u) encodePath.

(** [u.EscapedFragment()] *)
Definition EscapedFragment (u : t) : string :=
  let raw :=
    if negb (String.eqb (RawFragment u) "")
       && validEncoded (RawFragment u) encodeFragment then
      match unescape (RawFragment u) encodeFragment with
      | inl f => String.eqb f (Fragment u)
      | inr _ => false
      end
    else false in
  if raw then RawFragment u else escape (Fragment u) encodeFragment.

Definition Userinfo_String (ui : Userinfo) : string :=
  escape (username ui) encodeUserPassword
    +:+ (if passwordSet ui then ":" +:+ escape (password ui) encodeUserPassword else "").

Definition nonempty (s : string) : bool := negb (String.eqb s "").

(** [u.String()] *)
Definition String_ (u : t) : string :=
  let buf := if nonempty (Scheme u) then Scheme u +:+ ":" else "" in
  let buf :=
    if nonempty (Opaque u) then buf +:+ Opaque u
    else
      let buf :=
        if nonempty (Scheme u) || nonempty (Host u) || bool_decide (User u ≠ None) then
          if OmitHost u && negb (nonempty (Host u)) && bool_decide (User u = None)
          then buf
          else
            buf
            +:+ (if nonempty (Host u) || nonempty (Path u) || bool_decide (User u ≠ None)
                 then "//" else "")
            +:+ match User u with
                | Some ui => Userinfo_String ui +:+ "@"
                | None => ""
                end
            +:+ (if nonempty (Host u) then escape (Host u) encodeHost else "")
        else buf in
      let path := EscapedPath u in
      let buf :=
        if nonempty path && negb (strings.HasPrefix path "/") && nonempty (Host u)
        then buf +:+ "/" else buf in
      let buf :=
        if negb (nonempty buf) && strings.ContainsByte (strings.Cut path "/").1.1 ":"
        then buf +:+ "./" else buf in
      buf +:+ path in
  let buf :=
    if ForceQuery u || nonempty (RawQuery u) then buf +:+ "?" +:+ RawQuery u else buf in
  if nonempty (Fragment u) then buf +:+ "#" +:+ EscapedFragment u else buf.

End URL.

(** ** io, io/ioutil, bytes *)

Module io.

(** An [io.ReadCloser] seen from its consumer: the bytes it still has to
    deliver, and how the stream ends after them ([None]: [io.EOF]; an
    error: the read that follows the last byte fails with it, and so does
    every later read). *)
Record Reader : Type := mk { pending : bytes; failure : option error }.

(** [ioutil.ReadAll(r)]: everything up to EOF or the first error; the
    reader is left drained.  EOF is not reported as an error. *)
Definition ReadAll (r : Reader) : bytes * option error * Reader :=
  (pending r, failure r, {| pending := []; failure := failure r |}).

(** [ioutil.NopCloser(bytes.NewBuffer(buf))] *)
Definition NopCloser_NewBuffer (buf : bytes) : Reader :=
  {| pending := buf; failure := None |}.

End io.

(** ** net/http *)

Module http.

Definition validHeaderFieldByte (c : byte) : bool :=
  url.isalnum c || url.oneof c "!#$%&'*+-.^_`|~".

(** The letter-case pass of [textproto.CanonicalMIMEHeaderKey]. *)
Fixpoint canon (upper : bool) (a : bytes) : bytes :=
  match a with
  | [] => []
  | c :: a' =>
      let n := N_of_ascii c in
      let c := if upper && (97 <=? n) && (n <=? 122) then ascii_of_N (n - 32)
               else if negb upper && (65 <=? n) && (n <=? 90) then ascii_of_N (n + 32)
               else c in
      c :: canon (Ascii.eqb c "-") a'
  end.

Definition CanonicalMIMEHeaderKey (s : string) : string :=
  if forallb validHeaderFieldByte (bytes_of s)
  then string_of (canon true (bytes_of s)) else s.

(** [http.Header], a [map[string][]string] keyed by canonical names. *)
Abbreviation Header := (gmap string (list string)).

(** [Header.Get]: the first value of the canonicalised key, or "". *)
Definition Get (h : Header) (key : string) : string :=
  match h !! CanonicalMIMEHeaderKey key with
  | Some (v :: _) => v
  | _ => ""
  end.

(** The parts of [http.Request] the verifiers touch.  The body of a request
    a server has received is never nil. *)
Record Request : Type := mkRequest { Header_ : Header; Body : io.Reader }.

(** [httpRequest.Body = b] *)
Definition set_Body (r : Request) (b : io.Reader) : Request :=
  {| Header_ := Header_ r; Body := b |}.

End http.

(** * oauth.go *)

(** The fields of [App] (declared in goshopify.go) that oauth.go reads. *)
Record App : Type := mkApp {
  ApiKey : string;
  ApiSecret : string;
  RedirectUrl : string;
  Scope : string
}.

Definition shopifyChecksumHeader : string := "X-Shopify-Hmac-Sha256".

(** The bytes of a host name: letters, digits, '-' and '.'. *)
Definition hostname_byte (c : byte) : bool := url.isalnum c || url.oneof c "-.".
Definition hostname (s : string) : bool := forallb hostname_byte (bytes_of s).

(** Modelled from the spec: the basic shape of a shop name, which the spec
    has [ShopBaseUrl] validate without saying what the shape is; taken here
    as a name that is not empty and holds letters, digits and '-' only. *)
Definition shop_name (name : string) : bool :=
  negb (String.eqb name "")
  && forallb (fun c => url.isalnum c || Ascii.eqb c "-") (bytes_of name).

(** Modelled from the spec: [ShopBaseUrl] is declared in goshopify.go, not
    in oauth.go.  The spec has it validate the basic shape of the shop name
    and resolve the name to the shop's base URL by appending the platform's
    domain suffix, [https://{shop}.{platform-domain}]; the domain is
    Shopify's.  For a name of another shape the spec fixes no result: the
    model hands the name to [rejected], and nothing below depends on what
    that returns.  [AuthorizeUrl] takes the function as a parameter; this
    instance gives the concrete URLs. *)
Definition ShopBaseUrl_spec (rejected : string → string) (name : string) : string :=
  if shop_name name then "https://" +:+ name +:+ ".myshopify.com" else rejected name.

Section AuthorizeUrl.

Variable ShopBaseUrl : string → string.

(** [shopUrl] as [AuthorizeUrl] has it when it calls [shopUrl.String()].
    [url.Parse] returns a nil [*URL] with its error, which is dropped: the
    assignment to [shopUrl.Path] then panics, [None]. *)
Definition AuthorizeUrl_shopUrl (app : App) (shopName state : string) : option URL.t :=
  match URL.Parse (ShopBaseUrl shopName) with
  | inr _ => None
  | inl shopUrl =>
      let shopUrl := URL.set_Path shopUrl "/admin/oauth/authorize" in
      let query := URL.Query shopUrl in
      let query := url.Set_ query "client_id" (ApiKey app) in
      let query := url.Set_ query "redirect_uri" (RedirectUrl app) in
      let query := url.Set_ query "scope" (Scope app) in
      let query := url.Set_ query "state" state in
      let shopUrl := URL.set_RawQuery shopUrl (url.Encode query) in
      Some shopUrl
  end.

Definition AuthorizeUrl (app : App) (shopName state : string) : option string :=
  URL.String_ <$> AuthorizeUrl_shopUrl app shopName state.

End AuthorizeUrl.

(** Verify a message against a message HMAC. *)
Definition VerifyMessage (app : App) (message messageMAC : string) : bool :=
  let mac := hmac.New (bytes_of (ApiSecret app)) in
  let mac := hmac.Write mac (bytes_of message) in
  let expectedMAC := hmac.Sum mac [] in
  let '(actualMac, _) := hex.DecodeString messageMAC in
  hmac_Equal actualMac expectedMAC.

(** Verifying URL callback parameters. *)
Definition VerifyAuthorizationURL (app : App) (u : URL.t) : bool * option error :=
  let q := URL.Query u in
  let messageMAC := url.Get q "hmac" in
  let q := url.Del q "hmac" in
  let q := url.Del q "signature" in
  let '(message, err) := url.QueryUnescape (url.Encode q) in
  (VerifyMessage app message messageMAC, err).

(** Verifies a webhook http request; the request is returned as the call
    leaves it. *)
Definition VerifyWebhookRequest (app : App) (httpRequest : http.Request)
  : bool * http.Request :=
  let shopifySha256 := http.Get (http.Header_ httpRequest) shopifyChecksumHeader in
  let actualMac := bytes_of shopifySha256 in
  let mac := hmac.New (bytes_of (ApiSecret app)) in
  let '(requestBody, _, _) := io.ReadAll (http.Body httpRequest) in
  let httpRequest := http.set_Body httpRequest (io.NopCloser_NewBuffer requestBody) in
  let mac := hmac.Write mac requestBody in
  let macSum := hmac.Sum mac [] in
  let expectedMac := bytes_of (base64.EncodeToString macSum) in
  (hmac_Equal actualMac expectedMac, httpRequest).

(** [fmt.Errorf] with [%d] of a length and [%x] of a byte slice. *)
Definition fmt_d (n : nat) : string := pretty n.
Definition fmt_x (b : bytes) : string := hex.EncodeToString b.

(** The verbose variant. *)
Definition VerifyWebhookRequestVerbose (app : App) (httpRequest : http.Request)
  : bool * option error * http.Request :=
  if bool_decide (ApiSecret app = "") then
    (false, Some (errorString "ApiSecret is empty"), httpRequest)
  else
    let shopifySha256 := http.Get (http.Header_ httpRequest) shopifyChecksumHeader in
    if bool_decide (shopifySha256 = "") then
      (false, Some (errorString ("header " +:+ shopifyChecksumHeader +:+ " not set")),
       httpRequest)
    else
      match base64.DecodeString shopifySha256 with
      | inr err => (false, Some err, httpRequest)
      | inl decodedReceivedHMAC =>
          if negb (length decodedReceivedHMAC =? 32)%nat then
            (false,
             Some (errorString ("received HMAC is not of length 32, it is of length "
                                +:+ fmt_d (length decodedReceivedHMAC))),
             httpRequest)
          else
            let mac := hmac.New (bytes_of (ApiSecret app)) in
            let '(requestBody, err, drained) := io.ReadAll (http.Body httpRequest) in
            let httpRequest := http.set_Body httpRequest drained in
            match err with
            | Some err => (false, Some err, httpRequest)
            | None =>
                let httpRequest :=
                  http.set_Body httpRequest (io.NopCloser_NewBuffer requestBody) in
                if (length requestBody =? 0)%nat then
                  (false, Some (errorString "request body is empty"), httpRequest)
                else
                  let mac := hmac.Write mac requestBody in
                  let computedHMAC := hmac.Sum mac [] in
                  let HMACSame := hmac_Equal decodedReceivedHMAC computedHMAC in
                  if negb HMACSame then
                    (HMACSame,
                     Some (errorString ("expected hash " +:+ fmt_x computedHMAC
                                        +:+ " does not equal " +:+ fmt_x decodedReceivedHMAC)),
                     httpRequest)
                  else (HMACSame, None, httpRequest)
            end
      end.

Definition hmacSHA256 (key body expected : bytes) : bool :=
  let mac := hmac.New key in
  let mac := hmac.Write mac body in
  let result := hmac.Sum mac [] in
  let dst := hex.Encode result in
  hmac_Equal dst expected.

(** [fmt.Sprintf("%s=%s", k, strings.Join(v, ","))] *)
Definition key_value (kv : string * list string) : string :=
  kv.1 +:+ "=" +:+ strings.Join kv.2 ",".

(** Verifies an app proxy request.  [range] is the order in which
    [for k, v := range val] visits the map, which Go leaves unspecified. *)
Definition VerifySignature_range
    (range : url.Values → list (string * list string)) (app : App) (u : URL.t) : bool :=
  let val := URL.Query u in
  let sig := url.Get val "signature" in
  let val := url.Del val "signature" in
  let keys := fold_left (fun keys kv => keys ++ [key_value kv]) (range val) [] in
  let keys := sort_Strings keys in
  let joined := strings.Join keys "" in
  hmacSHA256 (bytes_of (ApiSecret app)) (bytes_of joined) (bytes_of sig).

Definition VerifySignature (app : App) (u : URL.t) : bool :=
  VerifySignature_range map_to_list app u.

(** What a handler invoked afterwards does to read the request body:
    [ioutil.ReadAll(httpRequest.Body)]. *)
Definition read_body (req : http.Request) : bytes * option error * http.Request :=
  let '(data, err, drained) := io.ReadAll (http.Body req) in
  (data, err, http.set_Body req drained).

(** A request with the given value of the checksum header and a body that
    can be read to the end. *)
Definition webhook (header body : string) : http.Request :=
  http.mkRequest {[ shopifyChecksumHeader := [header] ]} (io.mk (bytes_of body) None).

(** The signing input of [VerifyAuthorizationURL]: its local [message],
    with the error [url.QueryUnescape] returns next to it. *)
Definition AuthorizationURL_message (u : URL.t) : string * option error :=
  url.QueryUnescape (url.Encode (url.Del (url.Del (URL.Query u) "hmac") "signature")).

(** The signing input of [VerifySignature]: its local [joined]. *)
Definition Signature_message
    (range : url.Values → list (string * list string)) (u : URL.t) : string :=
  let val := url.Del (URL.Query u) "signature" in
  strings.Join
    (sort_Strings (fold_left (fun keys kv => keys ++ [key_value kv]) (range val) [])) "".

(** The values a list of query parameters gives for a key, in the order
    they are written. *)
Definition values_of (k : string) (l : list (string * string)) : list string :=
  (filter (fun kv => kv.1 = k) l).*2.

(** The key/value pairs of a [url.Values] in the order [Encode] writes
    them: by ascending key, the values of a key in their own order. *)
Definition sorted_pairs (v : url.Values) : list (string * string) :=
  flat_map (fun k => (fun x => (k, x)) <$> default [] (v !! k))
           (sort_Strings (map fst (map_to_list v))).

(** A pair written as key=value: escaped, as [Encode] does, and plainly. *)
Definition escaped_pair (kv : string * string) : string :=
  url.QueryEscape kv.1 +:+ "=" +:+ url.QueryEscape kv.2.
Definition plain_pair (kv : string * string) : string := kv.1 +:+ "=" +:+ kv.2.

(** What [Encode]'s loop does to the builder for one more key=value. *)
Definition write_piece (buf piece : string) : string :=
  (if bool_decide (buf = "") then buf else buf +:+ "&") +:+ piece.

(** The bytes [Encode] writes: unreserved bytes, the bytes of an escape and
    the two separators. *)
Definition query_byte (c : byte) : bool := url.isalnum c || url.oneof c "-_.~%+=&".
Definition query_text (s : string) : bool := forallb query_byte (bytes_of s).

(** * Properties *)

(** ** Test vectors for the library models *)

Example Sum256_abc :
  hex.EncodeToString (sha256.Sum256 (bytes_of "abc"))
  = "ba7816bf8f01cfea414140de5dae2223b00361a396177a9cb410ff61f20015ad".
Proof. vm_compute. reflexivity. Qed.

Example Sum256_empty :
  hex.EncodeToString (sha256.Sum256 [])
  = "e3b0c44298fc1c149afbf4c8996fb92427ae41e4649b934ca495991b7852b855".
Proof. vm_compute. reflexivity. Qed.

Example Sum256_two_blocks :
  hex.EncodeToString
    (sha256.Sum256 (bytes_of "abcdbcdecdefdefgefghfghighijhijkijkljklmklmnlmnomnopnopq"))
  = "248d6a61d20638b8e5c026930c3e6039a33ce45964ff2167f6ecedd419db06c1".
Proof. vm_compute. reflexivity. Qed.

(** RFC 4231, test cases 2 and 6 (a key longer than the block size). *)
Example hmac_sha256_rfc4231_2 :
  hex.EncodeToString (hmac_sha256 (bytes_of "Jefe") (bytes_of "what do ya want for nothing?"))
  = "5bdcc146bf60754e6a042426089575c75a003f089d2739839dec58b964ec3843".
Proof. vm_compute. reflexivity. Qed.

Example hmac_sha256_rfc4231_6 :
  hex.EncodeToString
    (hmac_sha256 (replicate 131 (byte_of_N 0xaa))
       (bytes_of "Test Using Larger Than Block-Size Key - Hash Key First"))
  = "60e431591ee0b67f0d8a26aacbf5b77f8e0bc6213728c5140546040f0ee37f54".
Proof. vm_compute. reflexivity. Qed.

Example base64_vectors :
  base64.EncodeToString (bytes_of "foobar") = "Zm9vYmFy"
  ∧ base64.EncodeToString (bytes_of "fooba") = "Zm9vYmE="
  ∧ base64.EncodeToString (bytes_of "foob") = "Zm9vYg=="
  ∧ base64.DecodeString "Zm9vYg==" = inl (bytes_of "foob")
  ∧ base64.DecodeString "Zm9vYg=" = inr base64_CorruptInputError
  ∧ base64.DecodeString "Zm9v=Yg=" = inr base64_CorruptInputError.
Proof. vm_compute. done. Qed.

Example hex_vectors :
  hex.DecodeString "DeadBeef" = (map ascii_of_N [0xde; 0xad; 0xbe; 0xef], None)
  ∧ hex.DecodeString "dead0" = (map ascii_of_N [0xde; 0xad], Some hex_ErrLength)
  ∧ hex.DecodeString "dexd" = (map ascii_of_N [0xde], Some (hex_InvalidByteError "x")).
Proof. vm_compute. done. Qed.

Example url_vectors :
  url.QueryEscape "https://app.example/cb a~b*" = "https%3A%2F%2Fapp.example%2Fcb+a~b%2A"
  ∧ url.QueryUnescape "a%2fb+c" = ("a/b c", None)
  ∧ url.QueryUnescape "100%" = ("", Some (url_EscapeError "%"))
  ∧ url.Encode (url.ParseQuery "b=2&a=1&a=3&&c&bad=%zz&x;y=1") = "a=1&a=3&b=2&c="
  ∧ match URL.Parse "HTTPS://user:pw@host:8080/a%20b/c?q=1#frag" with
    | inl u => URL.Path u = "/a b/c"
               ∧ URL.String_ u = "https://user:pw@host:8080/a%20b/c?q=1#frag"
    | inr _ => False
    end
  ∧ http.CanonicalMIMEHeaderKey "x-shopify-hmac-sha256" = shopifyChecksumHeader.
Proof. vm_compute. done. Qed.

(** ** Strings and byte slices *)

Lemma bytes_of_string_of (b : bytes) : bytes_of (string_of b) = b.
Proof. apply list_ascii_of_string_of_list_ascii. Qed.

Lemma string_of_bytes_of (s : string) : string_of (bytes_of s) = s.
Proof. apply string_of_list_ascii_of_string. Qed.

Lemma bytes_of_inj (s1 s2 : string) : bytes_of s1 = bytes_of s2 → s1 = s2.
Proof.
  intros H. rewrite <- (string_of_bytes_of s1), <- (string_of_bytes_of s2).
  by rewrite H.
Qed.

Lemma bytes_of_app (s1 s2 : string) :
  bytes_of (s1 +:+ s2) = bytes_of s1 ++ bytes_of s2.
Proof. induction s1 as [|c s1 IH]; simpl; [done | by rewrite IH]. Qed.

Lemma string_of_app (b1 b2 : bytes) :
  string_of (b1 ++ b2) = string_of b1 +:+ string_of b2.
Proof. induction b1 as [|c b1 IH]; simpl; [done | by rewrite IH]. Qed.

Lemma bytes_of_length (s : string) : length (bytes_of s) = String.length s.
Proof. induction s as [|c s IH]; simpl; [done | by rewrite IH]. Qed.

(** A property of a byte that holds of the 256 of them. *)
Ltac each_byte c := destruct c as [[] [] [] [] [] [] [] []]; vm_compute; try done.

Lemma byte_of_N_of_ascii (c : byte) : byte_of_N (N_of_ascii c) = c.
Proof. each_byte c. Qed.

(** ** SHA-256 and HMAC: the digest has 32 bytes *)

Lemma Sum256_length (data : bytes) : length (sha256.Sum256 data) = 32%nat.
Proof.
  unfold sha256.Sum256.
  destruct (sha256.block _ _ _) as [[[[[[[h0 h1] h2] h3] h4] h5] h6] h7].
  reflexivity.
Qed.

Lemma hmac_sha256_length (key msg : bytes) : length (hmac_sha256 key msg) = 32%nat.
Proof. unfold hmac_sha256, hmac.Sum. simpl. apply Sum256_length. Qed.

(** ** [subtle.ConstantTimeCompare] and [hmac.Equal] *)

Lemma byte_lt_256 (c : byte) : N_of_ascii c < 2 ^ 8.
Proof. apply N_ascii_bounded. Qed.

Lemma lor_lt_pow2 (a b n : N) : a < 2 ^ n → b < 2 ^ n → N.lor a b < 2 ^ n.
Proof.
  intros Ha Hb.
  destruct (N.eq_dec (N.lor a b) 0) as [->|Hne]; [by apply N.neq_0_lt_0, N.pow_nonzero|].
  apply N.log2_lt_pow2; [lia|]. rewrite N.log2_lor.
  destruct (N.eq_dec a 0) as [->|Ha0], (N.eq_dec b 0) as [->|Hb0]; simpl in *; try done.
  - rewrite N.max_r by lia. apply N.log2_lt_pow2; lia.
  - rewrite N.max_l by (destruct a; simpl; lia). apply N.log2_lt_pow2; lia.
  - apply N.max_lub_lt; apply N.log2_lt_pow2; lia.
Qed.

Lemma lxor_lt_pow2 (a b n : N) : a < 2 ^ n → b < 2 ^ n → N.lxor a b < 2 ^ n.
Proof.
  intros Ha Hb.
  destruct (N.eq_dec (N.lxor a b) 0) as [->|Hne]; [by apply N.neq_0_lt_0, N.pow_nonzero|].
  apply N.log2_lt_pow2; [lia|].
  eapply N.le_lt_trans; [apply N.log2_lxor|].
  destruct (N.eq_dec a 0) as [->|Ha0], (N.eq_dec b 0) as [->|Hb0]; simpl in *; try done.
  - rewrite N.max_r by lia. apply N.log2_lt_pow2; lia.
  - rewrite N.max_l by (destruct a; simpl; lia). apply N.log2_lt_pow2; lia.
  - apply N.max_lub_lt; apply N.log2_lt_pow2; lia.
Qed.

Lemma ConstantTimeByteEq_0 (v : N) :
  v < 2 ^ 8 → subtle.ConstantTimeByteEq v 0 = if bool_decide (v = 0) then 1 else 0.
Proof.
  intros Hv. unfold subtle.ConstantTimeByteEq. rewrite N.lxor_0_r.
  case_bool_decide as H0; [by subst|].
  replace (v + (2 ^ 32 - 1)) with ((v - 1) + 1 * 2 ^ 32) by lia.
  rewrite N.Div0.mod_add, N.mod_small by lia.
  rewrite N.shiftr_div_pow2, N.div_small by lia. done.
Qed.

(** The loop runs to the end of [x] without a panic when the lengths agree;
    its accumulator is zero exactly when the accumulator was zero and the
    bytes from [i] on are the same, and its leakage is fixed by [n] and [i]. *)
Lemma loop_spec (n i : nat) (x y : bytes) (v : N) :
  (i + n = length x)%nat → length x = length y → v < 2 ^ 8 →
  ∃ v', subtle.loop n i x y v = Some (v', subtle.loop_leakage n i)
        ∧ v' < 2 ^ 8 ∧ (v' = 0 ↔ v = 0 ∧ drop i x = drop i y).
Proof.
  revert i v. induction n as [|n IH]; intros i v Hi Hlen Hv; simpl.
  - exists v. replace i with (length x) by lia. split; [done|]. split; [done|].
    rewrite drop_all, Hlen, drop_all. tauto.
  - destruct (lookup_lt_is_Some_2 x i) as [a Ha]; [lia|].
    destruct (lookup_lt_is_Some_2 y i) as [b Hb]; [lia|].
    rewrite Ha, Hb.
    destruct (IH (S i) (N.lor v (N.lxor (N_of_ascii a) (N_of_ascii b))))
      as (v' & Hrun & Hv' & Hz); [lia | done | |].
    { apply lor_lt_pow2; [done|]. apply lxor_lt_pow2; apply byte_lt_256. }
    exists v'. rewrite Hrun. split; [done|]. split; [done|].
    rewrite Hz, N.lor_eq_0_iff, N.lxor_eq_0_iff.
    rewrite (drop_S x a i Ha), (drop_S y b i Hb).
    split.
    + intros [[? Hab] Hd]. split; [done|].
      f_equal; [|done]. rewrite <- (ascii_N_embedding a), <- (ascii_N_embedding b).
      by rewrite Hab.
    + intros [? Hd]. by simplify_eq.
Qed.

(** [ConstantTimeCompare] never panics; it returns 1 exactly on equal
    slices, and what it leaks is fixed by the two lengths. *)
Lemma ConstantTimeCompare_spec (x y : bytes) :
  subtle.ConstantTimeCompare x y =
    Some (if bool_decide (x = y) then 1 else 0, subtle.leakage (length x) (length y)).
Proof.
  unfold subtle.ConstantTimeCompare, subtle.leakage.
  destruct (Nat.eqb_spec (length x) (length y)) as [Hlen|Hlen]; simpl.
  - destruct (loop_spec (length x) 0 x y 0) as (v' & -> & Hv' & Hz);
      [done | done | done |].
    do 2 f_equal.
    rewrite !drop_0 in Hz. rewrite ConstantTimeByteEq_0 by done.
    rewrite (bool_decide_ext (x = y) (v' = 0)) by (rewrite Hz; tauto). done.
  - rewrite bool_decide_eq_false_2; [done|]. by intros ->.
Qed.

Lemma hmac_Equal_run_spec (x y : bytes) :
  hmac_Equal_run x y = Some (bool_decide (x = y)).
Proof.
  unfold hmac_Equal_run. rewrite ConstantTimeCompare_spec.
  by case_bool_decide.
Qed.

Lemma hmac_Equal_spec (x y : bytes) : hmac_Equal x y = bool_decide (x = y).
Proof. unfold hmac_Equal. by rewrite hmac_Equal_run_spec. Qed.

Lemma hmac_Equal_true (x y : bytes) : hmac_Equal x y = true ↔ x = y.
Proof. rewrite hmac_Equal_spec. apply bool_decide_eq_true. Qed.

Lemma hmac_Equal_length (x y : bytes) :
  length x ≠ length y → hmac_Equal x y = false.
Proof.
  intros H. rewrite hmac_Equal_spec. apply bool_decide_eq_false. by intros ->.
Qed.

(** ** encoding/hex *)

Lemma fromHexChar_digit_hi (v : byte) :
  hex.fromHexChar (hex.digit (N.shiftr (N_of_ascii v) 4)) = Some (N.shiftr (N_of_ascii v) 4).
Proof. each_byte v. Qed.

Lemma fromHexChar_digit_lo (v : byte) :
  hex.fromHexChar (hex.digit (N.land (N_of_ascii v) 15)) = Some (N.land (N_of_ascii v) 15).
Proof. each_byte v. Qed.

Lemma byte_of_nibbles (v : byte) :
  byte_of_N (N.lor (N.shiftl (N.shiftr (N_of_ascii v) 4) 4) (N.land (N_of_ascii v) 15)) = v.
Proof. each_byte v. Qed.

(** Decoding what [Encode] wrote gives the bytes back, and goes on with
    whatever follows. *)
Lemma hex_Decode_Encode_app (src rest : bytes) :
  hex.Decode (hex.Encode src ++ rest) = (src ++ (hex.Decode rest).1, (hex.Decode rest).2).
Proof.
  induction src as [|v src IH]; [simpl; by destruct (hex.Decode rest)|].
  cbn [hex.Encode app]. cbn [hex.Decode].
  rewrite fromHexChar_digit_hi, fromHexChar_digit_lo, IH, byte_of_nibbles. done.
Qed.

Lemma hex_Decode_Encode (src : bytes) : hex.Decode (hex.Encode src) = (src, None).
Proof.
  rewrite <- (app_nil_r (hex.Encode src)), hex_Decode_Encode_app. simpl.
  by rewrite app_nil_r.
Qed.

Lemma hex_Encode_length (src : bytes) : length (hex.Encode src) = (2 * length src)%nat.
Proof. induction src as [|v src IH]; simpl; lia. Qed.

Lemma hex_Encode_inj (b1 b2 : bytes) : hex.Encode b1 = hex.Encode b2 → b1 = b2.
Proof.
  intros H. apply (f_equal hex.Decode) in H. rewrite !hex_Decode_Encode in H.
  by simplify_eq.
Qed.

(** A single byte after a well-formed hex string is a decoding error (a bad
    digit or an odd length), reported together with all the bytes before it. *)
Lemma hex_DecodeString_trailing_byte (src : bytes) (c : byte) :
  ∃ err, hex.DecodeString (hex.EncodeToString src +:+ String c "") = (src, Some err).
Proof.
  unfold hex.DecodeString, hex.EncodeToString.
  rewrite bytes_of_app, bytes_of_string_of, hex_Decode_Encode_app. simpl.
  destruct (hex.fromHexChar c); simpl; rewrite app_nil_r; eauto.
Qed.

(** ** [VerifyMessage] *)

Lemma VerifyMessage_unfold (app : App) (message messageMAC : string) :
  VerifyMessage app message messageMAC
  = hmac_Equal (hex.DecodeString messageMAC).1
               (hmac_sha256 (bytes_of (ApiSecret app)) (bytes_of message)).
Proof. unfold VerifyMessage. by destruct (hex.DecodeString messageMAC). Qed.

(** [VerifyMessage] accepts exactly the strings whose decoded part, whether
    or not decoding ran into an error, is the expected MAC. *)
Lemma VerifyMessage_true (app : App) (message messageMAC : string) :
  VerifyMessage app message messageMAC = true
  ↔ (hex.DecodeString messageMAC).1
    = hmac_sha256 (bytes_of (ApiSecret app)) (bytes_of message).
Proof. rewrite VerifyMessage_unfold. apply hmac_Equal_true. Qed.

(** The MAC of a message in lower-case hex verifies. *)
Lemma VerifyMessage_valid (app : App) (message : string) :
  VerifyMessage app message
    (hex.EncodeToString (hmac_sha256 (bytes_of (ApiSecret app)) (bytes_of message))) = true.
Proof.
  apply VerifyMessage_true. unfold hex.DecodeString, hex.EncodeToString.
  by rewrite bytes_of_string_of, hex_Decode_Encode.
Qed.

(** A valid MAC followed by one more byte does not decode, and is accepted:
    the decoding error is dropped and the bytes decoded before it are
    compared. *)
Lemma VerifyMessage_trailing_byte (app : App) (message : string) (c : byte) :
  let mac := hmac_sha256 (bytes_of (ApiSecret app)) (bytes_of message) in
  let messageMAC := hex.EncodeToString mac +:+ String c "" in
  (hex.DecodeString messageMAC).2 ≠ None
  ∧ VerifyMessage app message messageMAC = true.
Proof.
  intros mac messageMAC.
  destruct (hex_DecodeString_trailing_byte mac c) as [err Herr].
  fold messageMAC in Herr. split; [by rewrite Herr|].
  apply VerifyMessage_true. by rewrite Herr.
Qed.

(** C1, at a failing input.  For the secret "hush" and the message
    "code=abc&shop=acme", the received signature made of the 64 hex digits
    of the right MAC followed by "zz" is not valid hex (decoding fails on
    the byte "z"), and [VerifyMessage] returns true: a decoding failure is
    not a verification failure, the decoded prefix is matched. *)
Theorem C1_VerifyMessage_accepts_undecodable_mac :
  let app := mkApp "k1" "hush" "https://app.example/cb" "read_products" in
  let messageMAC :=
    "d2b687f39d659fbf35cdf1c9b0c1388f9c45ed0ed151af7ab476ebc24101a7d4zz" in
  (hex.DecodeString messageMAC).2 = Some (hex_InvalidByteError "z")
  ∧ VerifyMessage app "code=abc&shop=acme" messageMAC = true.
Proof. vm_compute. done. Qed.

(** ** encoding/base64 *)

Ltac Zify.zify_post_hook ::= Z.to_euclidean_division_equations.

(** Induction on a byte slice three bytes at a time, as [Encode] reads it. *)
Lemma list_ind3 {A} (P : list A → Prop) :
  P [] → (∀ a, P [a]) → (∀ a b, P [a; b]) →
  (∀ a b c l, P l → P (a :: b :: c :: l)) → ∀ l, P l.
Proof.
  intros H0 H1 H2 H3 l.
  cut (P l ∧ (∀ a, P (a :: l)) ∧ (∀ a b, P (a :: b :: l))); [tauto|].
  induction l as [|x l (IH0 & IH1 & IH2)]; [auto|].
  split; [apply IH1|]. split; [intros; apply IH2|]. intros a b. by apply H3.
Qed.

Lemma lor_add_disjoint (x y k : N) :
  x mod 2 ^ k = 0 → y < 2 ^ k → N.lor x y = x + y.
Proof.
  intros Hx Hy.
  assert (N.land x y = 0) as Hland.
  { apply N.bits_inj; intros n; rewrite N.land_spec, N.bits_0.
    destruct (N.lt_ge_cases n k) as [Hn|Hn].
    - by rewrite <- (N.mod_pow2_bits_low x k n Hn), Hx, N.bits_0.
    - rewrite <- (N.mod_small y (2 ^ k) Hy), (N.mod_pow2_bits_high y k n Hn).
      apply andb_false_r. }
  rewrite N.add_nocarry_lxor by exact Hland. symmetry. by apply N.lxor_lor.
Qed.

Ltac each_sextet n :=
  destruct n as [|n]; [|do 6 (try destruct n as [n|n|])];
  try (exfalso; lia); vm_compute; done.

Lemma decodeMap_enc (n : N) : n < 64 → base64.decodeMap (base64.enc n) = Some n.
Proof. intros Hn. each_sextet n. Qed.

Lemma is_newline_enc (n : N) : n < 64 → base64.is_newline (base64.enc n) = false.
Proof. intros Hn. each_sextet n. Qed.

Lemma land_63 (x : N) : N.land x 63 = x mod 64.
Proof. apply (N.land_ones x 6). Qed.

Lemma decodeMap_sextet (val k : N) :
  base64.decodeMap (base64.sextet val k) = Some ((val / 2 ^ k) mod 64).
Proof.
  unfold base64.sextet. rewrite land_63, N.shiftr_div_pow2.
  apply decodeMap_enc. lia.
Qed.

Lemma is_newline_sextet (val k : N) : base64.is_newline (base64.sextet val k) = false.
Proof. unfold base64.sextet. rewrite land_63. apply is_newline_enc. lia. Qed.

(** The 24-bit groups [Encode] forms from three, two and one bytes. *)
Lemma group3 (a b c : byte) :
  N.lor (N.lor (N.shiftl (N_of_ascii a) 16) (N.shiftl (N_of_ascii b) 8)) (N_of_ascii c)
  = N_of_ascii a * 65536 + N_of_ascii b * 256 + N_of_ascii c.
Proof.
  pose proof (byte_lt_256 a). pose proof (byte_lt_256 b). pose proof (byte_lt_256 c).
  rewrite !N.shiftl_mul_pow2.
  rewrite (lor_add_disjoint (N_of_ascii a * 2 ^ 16) _ 16) by lia.
  rewrite (lor_add_disjoint _ _ 8); lia.
Qed.

Lemma group2 (a b : byte) :
  N.lor (N.shiftl (N_of_ascii a) 16) (N.shiftl (N_of_ascii b) 8)
  = N_of_ascii a * 65536 + N_of_ascii b * 256.
Proof.
  pose proof (byte_lt_256 a). pose proof (byte_lt_256 b).
  rewrite !N.shiftl_mul_pow2. rewrite (lor_add_disjoint _ _ 16); lia.
Qed.

(** [decodeQuantum]'s [val] when the four digits are the sextets of [v]. *)
Lemma quantum_sextets (v d2 d3 : N) :
  v < 2 ^ 24 → d2 < 64 → d3 < 64 →
  base64.quantum (v / 2 ^ 18 mod 64) (v / 2 ^ 12 mod 64) d2 d3
  = v / 2 ^ 12 * 4096 + d2 * 64 + d3.
Proof.
  intros Hv H2 H3. unfold base64.quantum. rewrite !N.shiftl_mul_pow2.
  rewrite (lor_add_disjoint (v / 2 ^ 18 mod 64 * 2 ^ 18) _ 18) by lia.
  rewrite (lor_add_disjoint _ (d2 * 2 ^ 6) 12) by lia.
  rewrite (lor_add_disjoint _ _ 6); lia.
Qed.

Lemma byte_of_N_eq (n : N) (c : byte) : n mod 256 = N_of_ascii c → byte_of_N n = c.
Proof. unfold byte_of_N. intros ->. apply ascii_N_embedding. Qed.

(** Decoding what [Encode] wrote gives the bytes back. *)
Lemma base64_decode_Encode (src : bytes) : base64.decode (base64.Encode src) = Some src.
Proof.
  induction src as [|a|a b|a b c src IH] using list_ind3; [done| | |].
  - cbn [base64.Encode base64.decode]. rewrite !decodeMap_sextet.
    cbn -[N.div N.modulo N.pow base64.quantum byte_of_N N.shiftl N.shiftr].
    pose proof (byte_lt_256 a). rewrite N.shiftl_mul_pow2.
    rewrite quantum_sextets, N.shiftr_div_pow2 by lia.
    do 2 f_equal. apply byte_of_N_eq. lia.
  - cbn [base64.Encode base64.decode]. rewrite !decodeMap_sextet.
    cbn -[N.div N.modulo N.pow base64.quantum byte_of_N N.shiftl N.shiftr N.lor].
    pose proof (byte_lt_256 a). pose proof (byte_lt_256 b). rewrite group2.
    rewrite quantum_sextets, !N.shiftr_div_pow2 by lia.
    do 2 f_equal; [|f_equal]; apply byte_of_N_eq; lia.
  - cbn [base64.Encode base64.decode]. rewrite !decodeMap_sextet, IH.
    pose proof (byte_lt_256 a). pose proof (byte_lt_256 b). pose proof (byte_lt_256 c).
    rewrite group3. rewrite quantum_sextets, !N.shiftr_div_pow2 by lia.
    do 2 f_equal; [|f_equal; [|f_equal]]; apply byte_of_N_eq; lia.
Qed.

Lemma base64_Encode_no_newline (src : bytes) :
  filter (fun c => base64.is_newline c = false) (base64.Encode src) = base64.Encode src.
Proof.
  induction src as [|a|a b|a b c src IH] using list_ind3; [done| | |];
    cbn [base64.Encode]; rewrite !filter_cons, !is_newline_sextet;
    repeat (rewrite decide_True by done); try done.
  by rewrite IH.
Qed.

Lemma base64_DecodeString_EncodeToString (src : bytes) :
  base64.DecodeString (base64.EncodeToString src) = inl src.
Proof.
  unfold base64.DecodeString, base64.EncodeToString.
  by rewrite bytes_of_string_of, base64_Encode_no_newline, base64_decode_Encode.
Qed.

Lemma base64_Encode_length (src : bytes) :
  length (base64.Encode src) = (4 * ((length src + 2) / 3))%nat.
Proof.
  induction src as [|a|a b|a b c src IH] using list_ind3; [done..|].
  cbn [base64.Encode length]. rewrite IH.
  replace (S (S (S (length src))) + 2)%nat with (length src + 2 + 1 * 3)%nat by lia.
  rewrite Nat.div_add by done. lia.
Qed.

Lemma base64_EncodeToString_inj (b1 b2 : bytes) :
  base64.EncodeToString b1 = base64.EncodeToString b2 → b1 = b2.
Proof.
  intros H. apply (f_equal base64.DecodeString) in H.
  rewrite !base64_DecodeString_EncodeToString in H. by simplify_eq.
Qed.

(** ** The webhook verifiers *)

Lemma VerifyWebhookRequest_unfold (app : App) (req : http.Request) :
  VerifyWebhookRequest app req
  = (hmac_Equal
       (bytes_of (http.Get (http.Header_ req) shopifyChecksumHeader))
       (bytes_of (base64.EncodeToString
                    (hmac_sha256 (bytes_of (ApiSecret app)) (io.pending (http.Body req))))),
     http.set_Body req (io.NopCloser_NewBuffer (io.pending (http.Body req)))).
Proof. reflexivity. Qed.

(** The silent variant answers whether the header is, byte for byte, the
    base64 text of the MAC of what could be read of the body. *)
Lemma VerifyWebhookRequest_result (app : App) (req : http.Request) :
  (VerifyWebhookRequest app req).1
  = bool_decide (http.Get (http.Header_ req) shopifyChecksumHeader
                 = base64.EncodeToString
                     (hmac_sha256 (bytes_of (ApiSecret app)) (io.pending (http.Body req)))).
Proof.
  rewrite VerifyWebhookRequest_unfold, hmac_Equal_spec. simpl.
  apply bool_decide_ext. split; [apply bytes_of_inj | by intros ->].
Qed.

Lemma base64_mac_length (key msg : bytes) :
  String.length (base64.EncodeToString (hmac_sha256 key msg)) = 44%nat.
Proof.
  unfold base64.EncodeToString.
  rewrite <- bytes_of_length, bytes_of_string_of, base64_Encode_length,
    hmac_sha256_length. done.
Qed.

Lemma base64_mac_nonempty (key msg : bytes) :
  base64.EncodeToString (hmac_sha256 key msg) ≠ "".
Proof.
  intros H. pose proof (base64_mac_length key msg) as Hlen. by rewrite H in Hlen.
Qed.

(** A header that is not set reads as the empty string. *)
Lemma header_absent (h : http.Header) :
  h !! shopifyChecksumHeader = None → http.Get h shopifyChecksumHeader = "".
Proof.
  unfold http.Get.
  change (http.CanonicalMIMEHeaderKey shopifyChecksumHeader) with shopifyChecksumHeader.
  by intros ->.
Qed.

(** The outcomes of the verbose variant, check by check. *)
Lemma Verbose_secret_empty (app : App) (req : http.Request) :
  ApiSecret app = "" →
  VerifyWebhookRequestVerbose app req
  = (false, Some (errorString "ApiSecret is empty"), req).
Proof. intros H. unfold VerifyWebhookRequestVerbose. by rewrite bool_decide_eq_true_2. Qed.

Lemma Verbose_header_empty (app : App) (req : http.Request) :
  ApiSecret app ≠ "" → http.Get (http.Header_ req) shopifyChecksumHeader = "" →
  VerifyWebhookRequestVerbose app req
  = (false, Some (errorString "header X-Shopify-Hmac-Sha256 not set"), req).
Proof.
  intros Hs Hh. unfold VerifyWebhookRequestVerbose.
  rewrite bool_decide_eq_false_2 by done. by rewrite Hh.
Qed.

Lemma Verbose_decoded (app : App) (req : http.Request) :
  ApiSecret app ≠ "" → http.Get (http.Header_ req) shopifyChecksumHeader ≠ "" →
  VerifyWebhookRequestVerbose app req
  = match base64.DecodeString (http.Get (http.Header_ req) shopifyChecksumHeader) with
    | inr err => (false, Some err, req)
    | inl received =>
        if bool_decide (length received = 32%nat) then
          match io.failure (http.Body req) with
          | Some err =>
              (false, Some err,
               http.set_Body req (io.mk [] (io.failure (http.Body req))))
          | None =>
              let body := io.pending (http.Body req) in
              let computed := hmac_sha256 (bytes_of (ApiSecret app)) body in
              (if bool_decide (body = []) then
                 (false, Some (errorString "request body is empty"))
               else if bool_decide (received = computed) then (true, None)
               else (false, Some (errorString ("expected hash " +:+ fmt_x computed
                                                +:+ " does not equal " +:+ fmt_x received))),
               http.set_Body req (io.NopCloser_NewBuffer body))
          end
        else
          (false,
           Some (errorString ("received HMAC is not of length 32, it is of length "
                              +:+ fmt_d (length received))), req)
    end.
Proof.
  intros Hs Hh. unfold VerifyWebhookRequestVerbose.
  rewrite !bool_decide_eq_false_2 by done.
  destruct (base64.DecodeString _) as [received|err]; [|done].
  destruct (Nat.eqb_spec (length received) 32) as [Hlen|Hlen]; simpl.
  2: by rewrite bool_decide_eq_false_2.
  rewrite bool_decide_eq_true_2 by done.
  destruct (io.failure (http.Body req)) as [err|]; [done|].
  destruct (io.pending (http.Body req)) as [|b body] eqn:Hbody; [done|].
  simpl. fold (hmac_sha256 (bytes_of (ApiSecret app)) (b :: body)).
  rewrite hmac_Equal_spec. by case_bool_decide.
Qed.

(** C3 (amended).  [VerifyWebhookRequestVerbose] checks its preconditions
    in order and reports each failure by its own error: an empty
    [ApiSecret]; a header that is missing or empty; a header that is not
    base64, reported by the decoder's own error (which carries no decoded
    length); a header that decodes to a number of bytes other than 32,
    reported with that number; a failed read of the body, reported by the
    reader's error; an empty body; and, only for a 32-byte signature and a
    body that was read and is not empty, a mismatch reported with both
    digests in hex.  A 32-byte signature equal to the digest is accepted. *)
Theorem C3_verbose_reports_each_cause (app : App) (req : http.Request) :
  let header := http.Get (http.Header_ req) shopifyChecksumHeader in
  let body := io.pending (http.Body req) in
  let computed := hmac_sha256 (bytes_of (ApiSecret app)) body in
  let result := (VerifyWebhookRequestVerbose app req).1 in
  (ApiSecret app = "" → result = (false, Some (errorString "ApiSecret is empty")))
  ∧ (http.Header_ req !! shopifyChecksumHeader = None → header = "")
  ∧ (ApiSecret app ≠ "" → header = "" →
     result = (false, Some (errorString "header X-Shopify-Hmac-Sha256 not set")))
  ∧ (ApiSecret app ≠ "" → header ≠ "" →
     (∀ err, base64.DecodeString header = inr err →
        err = base64_CorruptInputError ∧ result = (false, Some err))
     ∧ (∀ received, base64.DecodeString header = inl received →
        (length received ≠ 32%nat →
         result = (false, Some (errorString
                     ("received HMAC is not of length 32, it is of length "
                      +:+ fmt_d (length received)))))
        ∧ (length received = 32%nat →
           (∀ err, io.failure (http.Body req) = Some err → result = (false, Some err))
           ∧ (io.failure (http.Body req) = None →
              (body = [] → result = (false, Some (errorString "request body is empty")))
              ∧ (body ≠ [] → received ≠ computed →
                 result = (false, Some (errorString
                             ("expected hash " +:+ hex.EncodeToString computed
                              +:+ " does not equal " +:+ hex.EncodeToString received))))
              ∧ (body ≠ [] → received = computed → result = (true, None))))))
  ∧ (∀ (n : nat) (d1 d2 : bytes),
       errorString ("received HMAC is not of length 32, it is of length " +:+ fmt_d n)
       ≠ errorString ("expected hash " +:+ hex.EncodeToString d1
                      +:+ " does not equal " +:+ hex.EncodeToString d2)).
Proof.
  intros header body computed result. subst result.
  split; [intros Hs; by rewrite Verbose_secret_empty|].
  split; [apply header_absent|].
  split; [intros Hs Hh; by rewrite Verbose_header_empty|].
  split; [|by intros n d1 d2 [=]].
  intros Hs Hh. rewrite (Verbose_decoded app req Hs Hh). fold header.
  split.
  - intros err Hd. rewrite Hd. split; [|done]. unfold base64.DecodeString in Hd.
    destruct (base64.decode _) in Hd; by simplify_eq.
  - intros received ->. split.
    + intros Hlen. by rewrite bool_decide_eq_false_2.
    + intros Hlen. rewrite bool_decide_eq_true_2 by done. split.
      * by intros err ->.
      * intros ->. fold body computed. cbn zeta. split; [|split].
        -- intros Hb. by rewrite bool_decide_eq_true_2.
        -- intros Hb Hne. by rewrite !bool_decide_eq_false_2.
        -- intros Hb Heq. rewrite bool_decide_eq_false_2 by done.
           by rewrite bool_decide_eq_true_2.
Qed.

(** A signature that decodes to 31 bytes is reported as malformed, with its
    length, and not as a mismatch. *)
Lemma C3_verbose_reports_each_cause_witness :
  let app := mkApp "k1" "hush" "https://app.example/cb" "read_products" in
  let req := webhook "YWFhYWFhYWFhYWFhYWFhYWFhYWFhYWFhYWFhYWFhYQ==" "abc" in
  (VerifyWebhookRequestVerbose app req).1
  = (false, Some (errorString "received HMAC is not of length 32, it is of length 31")).
Proof.
  intros app req.
  destruct (C3_verbose_reports_each_cause app req) as (_ & _ & _ & H & _).
  destruct H as [_ H]; [vm_compute; done | vm_compute; done |].
  destruct (H (replicate 31 "a"%char)) as [H31 _]; [vm_compute; done|].
  apply H31. vm_compute. done.
Defined.

(** C3 as stated fails at a header that is not base64: "!" does not decode
    to 32 bytes (it does not decode at all), and the error returned is the
    decoder's, not the malformed-signature error that reports a decoded
    length. *)
Lemma C3_not_base64_counterexample :
  let app := mkApp "k1" "hush" "https://app.example/cb" "read_products" in
  let req := webhook "!" "abc" in
  base64.DecodeString "!" = inr base64_CorruptInputError
  ∧ (VerifyWebhookRequestVerbose app req).1 = (false, Some base64_CorruptInputError)
  ∧ ∀ n : nat,
      (VerifyWebhookRequestVerbose app req).1
      ≠ (false, Some (errorString ("received HMAC is not of length 32, it is of length "
                                   +:+ fmt_d n))).
Proof.
  intros app req.
  assert ((VerifyWebhookRequestVerbose app req).1 = (false, Some base64_CorruptInputError))
    as H by (vm_compute; done).
  split; [vm_compute; done|]. split; [done|]. intros n. by rewrite H.
Qed.

(** C2 (amended).  After [VerifyWebhookRequest], and after
    [VerifyWebhookRequestVerbose] on every exit path when the body can be
    read without error, the request body is readable by a downstream
    caller: the next read yields exactly the original body bytes, with no
    error, and leaves the body at end of file, where further reads yield no
    bytes.  (The silent variant restores what it could read even when the
    read failed.)  The headers are untouched. *)
Theorem C2_body_readable_once (app : App) (req : http.Request) :
  let body := io.pending (http.Body req) in
  let drained := http.mkRequest (http.Header_ req) (io.mk [] None) in
  read_body (VerifyWebhookRequest app req).2 = (body, None, drained)
  ∧ (io.failure (http.Body req) = None →
     read_body (VerifyWebhookRequestVerbose app req).2 = (body, None, drained))
  ∧ read_body drained = ([], None, drained).
Proof.
  intros body drained. split; [done|]. split; [|done].
  intros Hok. subst body drained.
  destruct req as [h [data fl]]. simpl in Hok. subst fl.
  destruct (decide (ApiSecret app = "")) as [Hs|Hs].
  { by rewrite Verbose_secret_empty. }
  destruct (decide (http.Get h shopifyChecksumHeader = "")) as [Hh|Hh].
  { by rewrite Verbose_header_empty. }
  rewrite Verbose_decoded by done. cbn [http.Header_ http.Body io.failure io.pending].
  destruct (base64.DecodeString _) as [received|err]; [|done].
  case_bool_decide; [|done]. done.
Qed.

Lemma C2_body_readable_once_witness :
  let app := mkApp "k1" "hush" "https://app.example/cb" "read_products" in
  let req := webhook "UmUQbJ7v4QC0SmGNHP805/sdzbvRIn57nvinWo2JchU=" "abc" in
  (VerifyWebhookRequestVerbose app req).1 = (true, None)
  ∧ (read_body (VerifyWebhookRequestVerbose app req).2).1 = (bytes_of "abc", None).
Proof.
  intros app req. split; [vm_compute; done|].
  destruct (C2_body_readable_once app req) as (_ & H & _).
  rewrite H; [done|]. vm_compute. done.
Defined.

(** C2 as stated fails at any request with a non-empty body: the body the
    verifier leaves behind is a buffer, which a read drains.  After the
    call the first read yields "abc" and the second yields nothing. *)
Lemma C2_second_read_counterexample :
  let app := mkApp "k1" "hush" "https://app.example/cb" "read_products" in
  let req := webhook "UmUQbJ7v4QC0SmGNHP805/sdzbvRIn57nvinWo2JchU=" "abc" in
  let after := (VerifyWebhookRequest app req).2 in
  (VerifyWebhookRequest app req).1 = true
  ∧ (read_body after).1 = (bytes_of "abc", None)
  ∧ (read_body (read_body after).2).1 = ([], None)
  ∧ (read_body (read_body after).2).1.1 ≠ io.pending (http.Body req).
Proof. vm_compute. done. Qed.

Lemma VerifyWebhookRequest_valid (app : App) (req : http.Request) :
  http.Get (http.Header_ req) shopifyChecksumHeader
  = base64.EncodeToString
      (hmac_sha256 (bytes_of (ApiSecret app)) (io.pending (http.Body req))) →
  (VerifyWebhookRequest app req).1 = true.
Proof. intros H. rewrite VerifyWebhookRequest_result. by apply bool_decide_eq_true_2. Qed.

(** Any header value other than the base64 text of the MAC is refused: in
    particular the valid value with one of its bytes changed. *)
Lemma VerifyWebhookRequest_tampered_header (app : App) (req : http.Request) :
  http.Get (http.Header_ req) shopifyChecksumHeader
  ≠ base64.EncodeToString
      (hmac_sha256 (bytes_of (ApiSecret app)) (io.pending (http.Body req))) →
  (VerifyWebhookRequest app req).1 = false.
Proof. intros H. rewrite VerifyWebhookRequest_result. by apply bool_decide_eq_false_2. Qed.

(** With the header of one body and another body in the request, the answer
    is false unless the two bodies have the same MAC under the secret. *)
Lemma VerifyWebhookRequest_tampered_body (app : App) (body body' : bytes) :
  let header := base64.EncodeToString (hmac_sha256 (bytes_of (ApiSecret app)) body) in
  let req := http.mkRequest {[ shopifyChecksumHeader := [header] ]} (io.mk body' None) in
  (VerifyWebhookRequest app req).1 = false
  ↔ hmac_sha256 (bytes_of (ApiSecret app)) body' ≠ hmac_sha256 (bytes_of (ApiSecret app)) body.
Proof.
  intros header req. rewrite VerifyWebhookRequest_result, bool_decide_eq_false.
  change (http.Get (http.Header_ req) shopifyChecksumHeader) with header.
  cbn [http.Body io.pending req]. subst header. split.
  - intros Hne Heq. apply Hne. by rewrite Heq.
  - intros Hne Heq. by apply Hne, base64_EncodeToString_inj.
Qed.

(** When the read of the body fails, the verbose variant returns before it
    restores the body: the bytes that were read are gone. *)
Lemma Verbose_read_error_body (app : App) (req : http.Request) (received : bytes) (err : error) :
  ApiSecret app ≠ "" →
  base64.DecodeString (http.Get (http.Header_ req) shopifyChecksumHeader) = inl received →
  length received = 32%nat →
  io.failure (http.Body req) = Some err →
  VerifyWebhookRequestVerbose app req
  = (false, Some err, http.set_Body req (io.mk [] (Some err))).
Proof.
  intros Hs Hd Hlen Herr.
  assert (http.Get (http.Header_ req) shopifyChecksumHeader ≠ "") as Hh.
  { intros Hh. rewrite Hh in Hd. vm_compute in Hd. by simplify_eq. }
  rewrite Verbose_decoded, Hd, bool_decide_eq_true_2, Herr by done. done.
Qed.

Lemma hmacSHA256_unfold (key body expected : bytes) :
  hmacSHA256 key body expected = hmac_Equal (hex.Encode (hmac_sha256 key body)) expected.
Proof. reflexivity. Qed.




(** C10.  The silent variant enforces none of the verbose variant's
    preconditions.  On every request its answer is the comparison of the
    header value, the empty string when the header is absent, with the
    base64 MAC of the body under [ApiSecret], empty or not.  So with an empty
    secret the request signed under the empty key is accepted; an absent
    header is refused only because "" is not a MAC; and a request with an
    empty body whose header is the base64 MAC of the empty message is
    accepted, where the verbose variant reports an error. *)
Theorem C10_silent_variant_checks_nothing (app : App) (req : http.Request) :
  let header := http.Get (http.Header_ req) shopifyChecksumHeader in
  let body := io.pending (http.Body req) in
  let mac key := base64.EncodeToString (hmac_sha256 (bytes_of key) body) in
  (VerifyWebhookRequest app req).1 = bool_decide (header = mac (ApiSecret app))
  ∧ (ApiSecret app = "" → header = mac "" → (VerifyWebhookRequest app req).1 = true)
  ∧ (http.Header_ req !! shopifyChecksumHeader = None →
     header = ""
     ∧ (VerifyWebhookRequest app req).1 = hmac_Equal [] (bytes_of (mac (ApiSecret app)))
     ∧ (VerifyWebhookRequest app req).1 = false)
  ∧ (body = [] → header = mac (ApiSecret app) →
     (VerifyWebhookRequest app req).1 = true
     ∧ ∃ err, (VerifyWebhookRequestVerbose app req).1 = (false, Some err)
              ∧ (io.failure (http.Body req) = None →
                 err = errorString (if bool_decide (ApiSecret app = "")
                                    then "ApiSecret is empty"
                                    else "request body is empty"))).
Proof.
  intros header body mac.
  split; [apply VerifyWebhookRequest_result|].
  split.
  { intros Hs Hh. apply VerifyWebhookRequest_valid. fold header body. by rewrite Hs. }
  split.
  { intros Habs. pose proof (header_absent _ Habs) as Hh. split; [done|].
    rewrite VerifyWebhookRequest_unfold. cbn [fst]. rewrite Hh. split; [done|].
    apply hmac_Equal_length. unfold mac.
    rewrite !bytes_of_length, base64_mac_length. done. }
  intros Hbody Hh. split; [by apply VerifyWebhookRequest_valid|].
  destruct (decide (ApiSecret app = "")) as [Hs|Hs].
  { rewrite Verbose_secret_empty by done. eexists. split; [done|].
    by rewrite bool_decide_eq_true_2. }
  assert (header ≠ "") as Hne.
  { rewrite Hh. apply base64_mac_nonempty. }
  rewrite Verbose_decoded by done. fold header. rewrite Hh. unfold mac.
  rewrite base64_DecodeString_EncodeToString.
  rewrite bool_decide_eq_true_2 by apply hmac_sha256_length.
  destruct (io.failure (http.Body req)) as [err|].
  { eexists. split; [done|]. done. }
  cbn zeta. fold body. rewrite (bool_decide_eq_true_2 _ Hbody).
  eexists. split; [done|]. by rewrite bool_decide_eq_false_2.
Qed.

Lemma C10_silent_variant_checks_nothing_witness :
  let app := mkApp "k1" "hush" "https://app.example/cb" "read_products" in
  let req := webhook "Knm8rWjeSXNIt2H0AOMT7DQ8/YSy8sQi/pEjbuUmGMs=" "" in
  (VerifyWebhookRequest app req).1 = true
  ∧ (VerifyWebhookRequestVerbose app req).1
    = (false, Some (errorString "request body is empty")).
Proof.
  intros app req.
  destruct (C10_silent_variant_checks_nothing app req) as (_ & _ & _ & H).
  destruct H as [Hsilent (err & Hverbose & Herr)]; [vm_compute; done | vm_compute; done |].
  split; [exact Hsilent|]. rewrite Hverbose, Herr; [done | vm_compute; done].
Defined.

(** ** Sorting and the order of map iteration *)

Lemma sort_Strings_Permutation (l1 l2 : list string) :
  l1 ≡ₚ l2 → sort_Strings l1 = sort_Strings l2.
Proof.
  intros Hp. unfold sort_Strings.
  apply (StronglySorted_unique String.le); try apply StronglySorted_merge_sort; try apply _.
  by rewrite !merge_sort_Permutation.
Qed.

Lemma sort_Strings_sorted (l : list string) : StronglySorted String.le (sort_Strings l).
Proof. apply StronglySorted_merge_sort; apply _. Qed.

Lemma fold_left_snoc {A B} (f : A → B) (l : list A) (acc : list B) :
  fold_left (fun keys x => keys ++ [f x]) l acc = acc ++ map f l.
Proof.
  revert acc. induction l as [|x l IH]; intros acc; simpl; [by rewrite app_nil_r|].
  by rewrite IH, <- app_assoc.
Qed.

Lemma append_empty_r (s : string) : s +:+ "" = s.
Proof.
  induction s as [|c s IH]; [done|].
  change (String c (s +:+ "") = String c s). by f_equal.
Qed.

Lemma Join_no_separator (l : list string) : strings.Join l "" = foldr String.append "" l.
Proof.
  induction l as [|x [|y l] IH]; [done | | ].
  - simpl. by rewrite append_empty_r.
  - change (strings.Join (x :: y :: l) "") with (x +:+ "" +:+ strings.Join (y :: l) "").
    rewrite IH. done.
Qed.

Lemma Del_filter (q : url.Values) (key : string) :
  url.Del q key = filter (fun kv => kv.1 ≠ key) q.
Proof.
  apply map_eq. intros k. unfold url.Del.
  destruct (decide (k = key)) as [->|Hne].
  - rewrite lookup_delete_eq. symmetry. apply map_lookup_filter_None. right.
    intros x _. simpl. tauto.
  - rewrite lookup_delete_ne by done. symmetry.
    destruct (q !! k) as [x|] eqn:Hk.
    + apply map_lookup_filter_Some. by split.
    + apply map_lookup_filter_None. by left.
Qed.

(** The signing input of [VerifySignature] does not depend on the order in
    which the map is ranged over. *)
Lemma Signature_message_spec
    (range : url.Values → list (string * list string)) (u : URL.t) :
  (∀ m, range m ≡ₚ map_to_list m) →
  Signature_message range u
  = foldr String.append ""
      (sort_Strings (key_value <$> map_to_list (url.Del (URL.Query u) "signature"))).
Proof.
  intros Hrange. unfold Signature_message. cbn zeta.
  rewrite fold_left_snoc, app_nil_l, Join_no_separator. f_equal.
  apply sort_Strings_Permutation. by rewrite Hrange.
Qed.

Lemma VerifySignature_range_unfold
    (range : url.Values → list (string * list string)) (app : App) (u : URL.t) :
  VerifySignature_range range app u
  = hmacSHA256 (bytes_of (ApiSecret app)) (bytes_of (Signature_message range u))
      (bytes_of (url.Get (URL.Query u) "signature")).
Proof. reflexivity. Qed.

Lemma hmacSHA256_true (key body : bytes) (expected : string) :
  hmacSHA256 key body (bytes_of expected) = true
  ↔ expected = hex.EncodeToString (hmac_sha256 key body).
Proof.
  rewrite hmacSHA256_unfold, hmac_Equal_true. unfold hex.EncodeToString. split.
  - intros H. by rewrite H, string_of_bytes_of.
  - intros ->. by rewrite bytes_of_string_of.
Qed.

(** C6.  [VerifySignature] removes exactly the key "signature" from the
    query parameters, formats each remaining key as key=value with the
    values joined by a comma, sorts these strings in ascending (byte-wise
    lexicographic) order and concatenates them with no separator, whatever
    the order in which the map is ranged over; it accepts exactly when the
    "signature" parameter is the lower-case hex text of the HMAC-SHA256 of
    that message under the app secret. *)
Theorem C6_VerifySignature_message
    (range : url.Values → list (string * list string)) (app : App) (u : URL.t) :
  (∀ m, range m ≡ₚ map_to_list m) →
  let q := URL.Query u in
  let remaining : url.Values := filter (fun kv => kv.1 ≠ "signature") q in
  (∀ k, remaining !! k = if decide (k = "signature") then None else q !! k)
  ∧ ∃ entries : list string,
      entries ≡ₚ (fun kv => kv.1 +:+ "=" +:+ strings.Join kv.2 ",") <$> map_to_list remaining
      ∧ StronglySorted String.le entries
      ∧ Signature_message range u = foldr String.append "" entries
      ∧ (VerifySignature_range range app u = true
         ↔ url.Get q "signature"
           = hex.EncodeToString
               (hmac_sha256 (bytes_of (ApiSecret app))
                            (bytes_of (foldr String.append "" entries)))).
Proof.
  intros Hrange q remaining. split.
  { intros k. subst remaining. rewrite <- Del_filter. unfold url.Del.
    case_decide as Hk; [subst; apply lookup_delete_eq | by apply lookup_delete_ne]. }
  exists (sort_Strings (key_value <$> map_to_list remaining)).
  split; [apply merge_sort_Permutation|].
  split; [apply sort_Strings_sorted|].
  assert (Signature_message range u
          = foldr String.append "" (sort_Strings (key_value <$> map_to_list remaining)))
    as Hmsg.
  { rewrite Signature_message_spec by done. subst remaining q. by rewrite Del_filter. }
  split; [done|].
  rewrite VerifySignature_range_unfold, hmacSHA256_true. by rewrite Hmsg.
Qed.

(** The proxy request extra=1&extra=2&shop=acme, signed under "hush" over
    the message "extra=1,2shop=acme", written with its parameters in
    another order. *)
Lemma C6_VerifySignature_message_witness :
  let app := mkApp "k1" "hush" "https://app.example/cb" "read_products" in
  let u := URL.set_RawQuery URL.empty
    "shop=acme&extra=1&signature=40fe8e36c345fe5cc5a1488d6ab75cc2830e5a2bd17c551b0ec865a608f7e525&extra=2" in
  Signature_message map_to_list u = "extra=1,2shop=acme"
  ∧ VerifySignature app u = true.
Proof.
  intros app u. split; [vm_compute; done|].
  destruct (C6_VerifySignature_message map_to_list app u) as (_ & entries & _ & _ & Hm & Hv);
    [done|].
  apply Hv. rewrite <- Hm. vm_compute. done.
Defined.

(** ** Parsing the query: the order of the parameters *)

Lemma values_of_cons (k k' v : string) (l : list (string * string)) :
  values_of k ((k', v) :: l)
  = if decide (k' = k) then v :: values_of k l else values_of k l.
Proof. unfold values_of. rewrite filter_cons. simpl. by case_decide. Qed.

(** Adding the pairs in turn appends, for each key, its values in the order
    they come. *)
Lemma fold_Add_lookup (l : list (string * string)) (m : url.Values) (k : string) :
  fold_left (fun m kv => url.Add m kv.1 kv.2) l m !! k
  = match values_of k l with
    | [] => m !! k
    | vs => Some (default [] (m !! k) ++ vs)
    end.
Proof.
  revert m. induction l as [|[k' v] l IH]; intros m; [done|].
  cbn [fold_left]. rewrite IH, values_of_cons. unfold url.Add. simpl.
  case_decide as Hk.
  - subst k'. rewrite lookup_insert_eq. simpl.
    destruct (values_of k l); [done|]. by rewrite <- app_assoc.
  - by rewrite lookup_insert_ne.
Qed.

Lemma ParseQuery_lookup (query k : string) :
  url.ParseQuery query !! k
  = match values_of k (url.pairs query) with [] => None | vs => Some vs end.
Proof. unfold url.ParseQuery. rewrite fold_Add_lookup, lookup_empty. done. Qed.

(** Two queries that give every key the same values in the same order parse
    to the same map, however the keys are interleaved. *)
Lemma ParseQuery_order (q1 q2 : string) :
  (∀ k, values_of k (url.pairs q1) = values_of k (url.pairs q2)) →
  url.ParseQuery q1 = url.ParseQuery q2.
Proof. intros H. apply map_eq. intros k. by rewrite !ParseQuery_lookup, H. Qed.

Lemma VerifyAuthorizationURL_unfold (app : App) (u : URL.t) :
  VerifyAuthorizationURL app u
  = (VerifyMessage app (AuthorizationURL_message u).1 (url.Get (URL.Query u) "hmac"),
     (AuthorizationURL_message u).2).
Proof.
  unfold VerifyAuthorizationURL, AuthorizationURL_message.
  by destruct (url.QueryUnescape _).
Qed.

Lemma Signature_message_range
    (range : url.Values → list (string * list string)) (u : URL.t) :
  (∀ m, range m ≡ₚ map_to_list m) →
  Signature_message range u = Signature_message map_to_list u.
Proof. intros H. by rewrite !Signature_message_spec. Qed.

(** C7 (amended).  Canonicalization does not depend on the order in which
    parameters with different keys are written: two URLs whose queries give
    every key the same values in the same order (so that one query is a
    reordering of the other that keeps the values of each key in order) get
    the same parsed parameters, the same signing input and the same result
    from [VerifyAuthorizationURL], and the same from [VerifySignature],
    whatever the order in which Go ranges over the map. *)
Theorem C7_order_of_distinct_keys
    (app : App) (u1 u2 : URL.t)
    (range1 range2 : url.Values → list (string * list string)) :
  (∀ k, values_of k (url.pairs (URL.RawQuery u1))
        = values_of k (url.pairs (URL.RawQuery u2))) →
  (∀ m, range1 m ≡ₚ map_to_list m) → (∀ m, range2 m ≡ₚ map_to_list m) →
  URL.Query u1 = URL.Query u2
  ∧ AuthorizationURL_message u1 = AuthorizationURL_message u2
  ∧ VerifyAuthorizationURL app u1 = VerifyAuthorizationURL app u2
  ∧ Signature_message range1 u1 = Signature_message range2 u2
  ∧ VerifySignature_range range1 app u1 = VerifySignature_range range2 app u2.
Proof.
  intros Hvalues Hr1 Hr2.
  assert (URL.Query u1 = URL.Query u2) as Hq by (by apply ParseQuery_order).
  assert (AuthorizationURL_message u1 = AuthorizationURL_message u2) as Hm.
  { unfold AuthorizationURL_message. by rewrite Hq. }
  assert (Signature_message range1 u1 = Signature_message range2 u2) as Hs.
  { rewrite (Signature_message_range range1), (Signature_message_range range2) by done.
    unfold Signature_message. by rewrite Hq. }
  split; [done|]. split; [done|].
  split; [by rewrite !VerifyAuthorizationURL_unfold, Hm, Hq|].
  split; [done|]. by rewrite !VerifySignature_range_unfold, Hs, Hq.
Qed.

(** shop=acme&code=abc and code=abc&shop=acme, signed for the callback. *)
Lemma C7_order_of_distinct_keys_witness :
  let app := mkApp "k1" "hush" "https://app.example/cb" "read_products" in
  let mac := "d2b687f39d659fbf35cdf1c9b0c1388f9c45ed0ed151af7ab476ebc24101a7d4" in
  let u1 := URL.set_RawQuery URL.empty ("code=abc&shop=acme&hmac=" +:+ mac) in
  let u2 := URL.set_RawQuery URL.empty ("shop=acme&hmac=" +:+ mac +:+ "&code=abc") in
  VerifyAuthorizationURL app u1 = (true, None)
  ∧ VerifyAuthorizationURL app u2 = (true, None).
Proof.
  intros app mac u1 u2.
  destruct (C7_order_of_distinct_keys app u1 u2 map_to_list map_to_list)
    as (_ & _ & H & _); [|done|done|].
  - intros k. vm_compute url.pairs. rewrite !values_of_cons. simpl.
    repeat case_decide; simplify_eq; done.
  - assert (VerifyAuthorizationURL app u1 = (true, None)) as H1
      by (vm_compute; reflexivity).
    split; [exact H1 | rewrite <- H; exact H1].
Defined.

(** C7 as stated fails when a key has several values: a=1&a=2 and a=2&a=1
    hold the same multiset of parameters, yet the signing inputs differ
    ("a=1&a=2" against "a=2&a=1" for the callback, "a=1,2..." against
    "a=2,1..." for the proxy), and the signatures that verify the first
    URL do not verify the second. *)
Lemma C7_same_key_counterexample :
  let app := mkApp "k1" "hush" "https://app.example/cb" "read_products" in
  let hmac := "hmac=5b877a13fb11bd3c1c46004636826bc7d4f6f42d0fdd80c813ea82d99f453c15" in
  let signature :=
    "signature=5d76bf08450d504b96840b8b0caafd175250351768608fced4f04a6bce408194" in
  let u1 := URL.set_RawQuery URL.empty ("a=1&a=2&" +:+ hmac +:+ "&" +:+ signature) in
  let u2 := URL.set_RawQuery URL.empty ("a=2&a=1&" +:+ hmac +:+ "&" +:+ signature) in
  url.pairs (URL.RawQuery u1) ≡ₚ url.pairs (URL.RawQuery u2)
  ∧ AuthorizationURL_message u1 = ("a=1&a=2", None)
  ∧ AuthorizationURL_message u2 = ("a=2&a=1", None)
  ∧ VerifyAuthorizationURL app u1 = (true, None)
  ∧ VerifyAuthorizationURL app u2 = (false, None)
  ∧ Signature_message map_to_list u1 ≠ Signature_message map_to_list u2
  ∧ VerifySignature app u1 = true
  ∧ VerifySignature app u2 = false.
Proof.
  intros app hmac signature u1 u2.
  split; [vm_compute; apply perm_swap|].
  do 4 (split; [vm_compute; reflexivity|]).
  split; [vm_compute; intros [=]|].
  split; vm_compute; reflexivity.
Qed.

(** ** Query escaping *)

Lemma append_cons (c : byte) (s t : string) : String c s +:+ t = String c (s +:+ t).
Proof. reflexivity. Qed.

Lemma append_assoc (s t r : string) : (s +:+ t) +:+ r = s +:+ t +:+ r.
Proof.
  induction s as [|c s IH]; [done|]. rewrite !append_cons. by f_equal.
Qed.

Lemma escape_cons (c : byte) (s : string) (mode : url.encoding) :
  url.escape (String c s) mode = url.escape (String c "") mode +:+ url.escape s mode.
Proof.
  cbn [url.escape]. destruct (url.shouldEscape c mode); [|done].
  by destruct (_ && _).
Qed.

(** Unescaping what [QueryEscape] wrote for one byte gives the byte back. *)
Lemma unescape_escape_byte (c : byte) (rest : string) :
  url.unescape (url.escape (String c "") url.encodeQueryComponent +:+ rest)
               url.encodeQueryComponent
  = match url.unescape rest url.encodeQueryComponent with
    | inl r => inl (String c r)
    | inr e => inr e
    end.
Proof. destruct c as [[] [] [] [] [] [] [] []]; reflexivity. Qed.

Lemma unescape_escape_app (s rest : string) :
  url.unescape (url.QueryEscape s +:+ rest) url.encodeQueryComponent
  = match url.unescape rest url.encodeQueryComponent with
    | inl r => inl (s +:+ r)
    | inr e => inr e
    end.
Proof.
  unfold url.QueryEscape. induction s as [|c s IH]; [by destruct (url.unescape _ _)|].
  rewrite escape_cons, append_assoc, unescape_escape_byte, IH.
  by destruct (url.unescape rest _).
Qed.

(** [QueryUnescape] undoes [QueryEscape]. *)
Lemma QueryUnescape_QueryEscape (s : string) :
  url.QueryUnescape (url.QueryEscape s) = (s, None).
Proof.
  unfold url.QueryUnescape.
  rewrite <- (append_empty_r (url.QueryEscape s)), unescape_escape_app. simpl.
  by rewrite append_empty_r.
Qed.

(** ** [Values.Encode] *)

Lemma Join_cons (p : string) (ps : list string) (sep : string) :
  strings.Join (p :: ps) sep = p +:+ foldr (fun q r => sep +:+ q +:+ r) "" ps.
Proof.
  revert p. induction ps as [|q ps IH]; intros p; [by rewrite append_empty_r|].
  change (strings.Join (p :: q :: ps) sep) with (p +:+ sep +:+ strings.Join (q :: ps) sep).
  by rewrite IH.
Qed.

Lemma append_nonempty (s t : string) : s ≠ "" → s +:+ t ≠ "".
Proof. by destruct s. Qed.

Lemma fold_write_nonempty (pieces : list string) (buf : string) :
  buf ≠ "" →
  fold_left write_piece pieces buf = buf +:+ foldr (fun q r => "&" +:+ q +:+ r) "" pieces.
Proof.
  revert buf. induction pieces as [|p ps IH]; intros buf Hbuf; simpl.
  - by rewrite append_empty_r.
  - rewrite IH.
    + unfold write_piece. rewrite bool_decide_eq_false_2 by done.
      by rewrite !append_assoc.
    + unfold write_piece. rewrite bool_decide_eq_false_2 by done.
      by apply append_nonempty, append_nonempty.
Qed.

(** Written to an empty builder, non-empty pieces come out joined by "&". *)
Lemma fold_write_Join (pieces : list string) :
  Forall (fun p => p ≠ "") pieces →
  fold_left write_piece pieces "" = strings.Join pieces "&".
Proof.
  destruct pieces as [|p ps]; [done|]. intros [Hp _]%Forall_cons.
  rewrite Join_cons. cbn [fold_left]. unfold write_piece at 2.
  rewrite bool_decide_eq_true_2 by done. by apply fold_write_nonempty.
Qed.

Lemma fold_write_pair (k : string) (vs : list string) (buf : string) :
  fold_left (url.write_pair (url.QueryEscape k)) vs buf
  = fold_left write_piece ((fun x => escaped_pair (k, x)) <$> vs) buf.
Proof. revert buf. induction vs as [|x vs IH]; intros buf; [done|]. simpl. by rewrite IH. Qed.

Lemma fold_write_keys (v : url.Values) (keys : list string) (buf : string) :
  fold_left
    (fun buf k => fold_left (url.write_pair (url.QueryEscape k)) (default [] (v !! k)) buf)
    keys buf
  = fold_left write_piece
      (escaped_pair <$> flat_map (fun k => (fun x => (k, x)) <$> default [] (v !! k)) keys)
      buf.
Proof.
  revert buf. induction keys as [|k keys IH]; intros buf; [done|].
  cbn [fold_left flat_map]. rewrite fmap_app, fold_left_app, IH, fold_write_pair.
  by rewrite <- list_fmap_compose.
Qed.

Lemma escaped_pair_nonempty (kv : string * string) : escaped_pair kv ≠ "".
Proof.
  unfold escaped_pair. destruct (url.QueryEscape kv.1); [done|]. done.
Qed.

(** [Encode] writes the pairs, escaped, joined by "&", by ascending key. *)
Lemma Encode_Join (v : url.Values) :
  url.Encode v = strings.Join (escaped_pair <$> sorted_pairs v) "&".
Proof.
  unfold url.Encode, sorted_pairs. rewrite fold_write_keys. apply fold_write_Join.
  apply Forall_fmap, Forall_forall. intros kv _. apply escaped_pair_nonempty.
Qed.

Lemma unescape_separator (c : byte) (s : string) :
  c = "="%char ∨ c = "&"%char →
  url.unescape (String c s) url.encodeQueryComponent
  = match url.unescape s url.encodeQueryComponent with
    | inl r => inl (String c r)
    | inr e => inr e
    end.
Proof. by intros [-> | ->]. Qed.

Lemma unescape_escaped_pair (kv : string * string) (rest : string) :
  url.unescape (escaped_pair kv +:+ rest) url.encodeQueryComponent
  = match url.unescape rest url.encodeQueryComponent with
    | inl r => inl (plain_pair kv +:+ r)
    | inr e => inr e
    end.
Proof.
  unfold escaped_pair, plain_pair. rewrite !append_assoc, unescape_escape_app.
  change ("=" +:+ ?s) with (String "=" s).
  rewrite unescape_separator, unescape_escape_app by auto.
  destruct (url.unescape rest _); [|done]. by rewrite !append_assoc.
Qed.

(** Percent-decoding the whole encoded query once gives the pairs written
    plainly, and never fails. *)
Lemma unescape_Join (l : list (string * string)) :
  url.unescape (strings.Join (escaped_pair <$> l) "&") url.encodeQueryComponent
  = inl (strings.Join (plain_pair <$> l) "&").
Proof.
  induction l as [|kv [|kv' l] IH]; [done | |].
  - simpl. rewrite <- (append_empty_r (escaped_pair kv)), unescape_escaped_pair. simpl.
    by rewrite append_empty_r.
  - change (strings.Join (escaped_pair <$> kv :: kv' :: l) "&")
      with (escaped_pair kv +:+ "&" +:+ strings.Join (escaped_pair <$> kv' :: l) "&").
    rewrite unescape_escaped_pair.
    change ("&" +:+ ?s) with (String "&" s).
    rewrite unescape_separator, IH by auto. done.
Qed.

Lemma QueryUnescape_Encode (v : url.Values) :
  url.QueryUnescape (url.Encode v) = (strings.Join (plain_pair <$> sorted_pairs v) "&", None).
Proof. unfold url.QueryUnescape. by rewrite Encode_Join, unescape_Join. Qed.

Lemma Del_hmac_signature (q : url.Values) :
  url.Del (url.Del q "hmac") "signature"
  = filter (fun kv => kv.1 ≠ "hmac" ∧ kv.1 ≠ "signature") q.
Proof.
  apply map_eq. intros k. unfold url.Del.
  destruct (q !! k) as [x|] eqn:Hk.
  - destruct (decide (k = "signature")) as [->|Hs].
    { rewrite lookup_delete_eq. symmetry. apply map_lookup_filter_None. right.
      intros y _. simpl. tauto. }
    rewrite lookup_delete_ne by done.
    destruct (decide (k = "hmac")) as [->|Hh].
    { rewrite lookup_delete_eq. symmetry. apply map_lookup_filter_None. right.
      intros y _. simpl. tauto. }
    rewrite lookup_delete_ne, Hk by done. symmetry.
    apply map_lookup_filter_Some. by split.
  - transitivity (@None (list string)).
    + destruct (decide (k = "signature")) as [->|Hs]; [apply lookup_delete_eq|].
      rewrite lookup_delete_ne by done.
      destruct (decide (k = "hmac")) as [->|Hh]; [apply lookup_delete_eq|].
      by rewrite lookup_delete_ne.
    + symmetry. apply map_lookup_filter_None. by left.
Qed.

(** C5.  [VerifyAuthorizationURL] removes exactly the keys "hmac" and
    "signature" from the query parameters, form-encodes what remains into
    one query string and percent-decodes that whole string once: a step that
    cannot fail, and that leaves the remaining parameters written plainly as
    key=value, joined by "&", by ascending key.  It then answers as
    [VerifyMessage] does on that message and the "hmac" parameter: true
    when the hex digits of that parameter decode to the HMAC-SHA256 of the
    message under the app secret. *)
Theorem C5_VerifyAuthorizationURL_message (app : App) (u : URL.t) :
  let q := URL.Query u in
  let remaining : url.Values :=
    filter (fun kv => kv.1 ≠ "hmac" ∧ kv.1 ≠ "signature") q in
  let message := strings.Join (plain_pair <$> sorted_pairs remaining) "&" in
  (∀ k, remaining !! k
        = if decide (k = "hmac" ∨ k = "signature") then None else q !! k)
  ∧ url.QueryUnescape (url.Encode remaining) = (message, None)
  ∧ AuthorizationURL_message u = url.QueryUnescape (url.Encode remaining)
  ∧ VerifyAuthorizationURL app u = (VerifyMessage app message (url.Get q "hmac"), None)
  ∧ ((VerifyAuthorizationURL app u).1 = true
     ↔ (hex.DecodeString (url.Get q "hmac")).1
       = hmac_sha256 (bytes_of (ApiSecret app)) (bytes_of message))
  ∧ (∀ mac : bytes, url.Get q "hmac" = hex.EncodeToString mac →
     ((VerifyAuthorizationURL app u).1 = true
      ↔ mac = hmac_sha256 (bytes_of (ApiSecret app)) (bytes_of message))).
Proof.
  intros q remaining message.
  assert (AuthorizationURL_message u = url.QueryUnescape (url.Encode remaining)) as Hm.
  { unfold AuthorizationURL_message. by rewrite Del_hmac_signature. }
  assert (url.QueryUnescape (url.Encode remaining) = (message, None)) as Hdec
    by apply QueryUnescape_Encode.
  assert (VerifyAuthorizationURL app u
          = (VerifyMessage app message (url.Get q "hmac"), None)) as Hv.
  { by rewrite VerifyAuthorizationURL_unfold, Hm, Hdec. }
  split.
  { intros k. subst remaining. rewrite <- Del_hmac_signature. unfold url.Del.
    case_decide as Hk.
    - destruct (decide (k = "signature")) as [->|Hs]; [apply lookup_delete_eq|].
      rewrite lookup_delete_ne by done. destruct Hk as [->|]; [|done].
      apply lookup_delete_eq.
    - rewrite !lookup_delete_ne by (intros <-; tauto). done. }
  split; [done|]. split; [done|]. split; [done|].
  rewrite Hv. cbn [fst]. split; [apply VerifyMessage_true|].
  intros mac Hmac. rewrite VerifyMessage_true, Hmac.
  unfold hex.DecodeString, hex.EncodeToString.
  by rewrite bytes_of_string_of, hex_Decode_Encode.
Qed.

(** A callback whose state holds a space, written "%20" in the URL: the
    message signed is "code=abc&shop=acme&state=x y". *)
Lemma C5_VerifyAuthorizationURL_message_witness :
  let app := mkApp "k1" "hush" "https://app.example/cb" "read_products" in
  let u := URL.set_RawQuery URL.empty
    "state=x%20y&shop=acme&hmac=dc9741881db41916a25416f73af36827d1a384c936d84d11cf372999e6cf2268&code=abc&signature=0f" in
  AuthorizationURL_message u = ("code=abc&shop=acme&state=x y", None)
  ∧ (VerifyAuthorizationURL app u).1 = true.
Proof.
  intros app u. split; [vm_compute; reflexivity|].
  destruct (C5_VerifyAuthorizationURL_message app u) as (_ & _ & _ & _ & _ & H).
  apply (H (hmac_sha256 (bytes_of "hush") (bytes_of "code=abc&shop=acme&state=x y")));
    vm_compute; reflexivity.
Defined.

(** ** Parsing back what [Encode] wrote *)

Lemma ContainsByte_cons (c d : byte) (s : string) :
  strings.ContainsByte (String d s) c = Ascii.eqb c d || strings.ContainsByte s c.
Proof. reflexivity. Qed.

Lemma ContainsByte_app (s t : string) (c : byte) :
  strings.ContainsByte (s +:+ t) c = strings.ContainsByte s c || strings.ContainsByte t c.
Proof.
  induction s as [|d s IH]; [done|].
  rewrite append_cons, !ContainsByte_cons, IH. by rewrite orb_assoc.
Qed.

(** [QueryEscape] writes none of the bytes that structure a query. *)
Lemma QueryEscape_no_separator (s : string) (c : byte) :
  c = "&"%char ∨ c = "="%char ∨ c = ";"%char →
  strings.ContainsByte (url.QueryEscape s) c = false.
Proof.
  intros Hc. unfold url.QueryEscape. induction s as [|d s IH]; [done|].
  rewrite escape_cons, ContainsByte_app, IH, orb_false_r.
  destruct Hc as [-> | [-> | ->]]; destruct d as [[] [] [] [] [] [] [] []]; reflexivity.
Qed.

Lemma Cut_append (p rest : string) (sep : byte) :
  strings.ContainsByte p sep = false →
  strings.Cut (p +:+ String sep rest) sep = (p, rest, true).
Proof.
  induction p as [|d p IH]; intros Hp.
  - simpl. by rewrite Ascii.eqb_refl.
  - rewrite ContainsByte_cons in Hp. apply orb_false_elim in Hp as [Hd Hp].
    rewrite append_cons. cbn [strings.Cut]. rewrite Ascii.eqb_sym, Hd, IH by done. done.
Qed.

Lemma Split_no_separator (p : string) (sep : byte) :
  strings.ContainsByte p sep = false → strings.Split p sep = [p].
Proof.
  induction p as [|d p IH]; intros Hp; [done|].
  rewrite ContainsByte_cons in Hp. apply orb_false_elim in Hp as [Hd Hp].
  cbn [strings.Split]. rewrite IH, Ascii.eqb_sym, Hd by done. done.
Qed.

Lemma Split_append (p rest : string) (sep : byte) :
  strings.ContainsByte p sep = false →
  strings.Split (p +:+ String sep rest) sep = p :: strings.Split rest sep.
Proof.
  assert (∀ s, strings.Split s sep ≠ []) as Hne.
  { intros [|d s]; [done|]. cbn [strings.Split].
    destruct (strings.Split s sep); [done|]. by destruct (Ascii.eqb d sep). }
  induction p as [|d p IH]; intros Hp.
  - change ("" +:+ String sep rest) with (String sep rest). cbn [strings.Split].
    destruct (strings.Split rest sep) eqn:Hs; [by apply Hne in Hs|].
    by rewrite Ascii.eqb_refl.
  - rewrite ContainsByte_cons in Hp. apply orb_false_elim in Hp as [Hd Hp].
    rewrite append_cons. cbn [strings.Split]. rewrite IH, Ascii.eqb_sym, Hd by done. done.
Qed.

Lemma escaped_pair_no_separator (kv : string * string) (c : byte) :
  c = "&"%char ∨ c = ";"%char → strings.ContainsByte (escaped_pair kv) c = false.
Proof.
  intros Hc. unfold escaped_pair.
  rewrite !ContainsByte_app, !QueryEscape_no_separator by tauto.
  by destruct Hc as [-> | ->].
Qed.

(** [parseQuery] reads a pair written by [Encode] as the pair it was. *)
Lemma parsePair_escaped (kv : string * string) : url.parsePair (escaped_pair kv) = Some kv.
Proof.
  unfold url.parsePair.
  rewrite escaped_pair_no_separator by auto.
  rewrite bool_decide_eq_false_2 by apply escaped_pair_nonempty.
  unfold escaped_pair. change ("=" +:+ ?s) with (String "=" s).
  rewrite Cut_append by (apply QueryEscape_no_separator; auto).
  rewrite !QueryUnescape_QueryEscape. by destruct kv.
Qed.

Lemma pairs_Join (l : list (string * string)) :
  url.pairs (strings.Join (escaped_pair <$> l) "&") = l.
Proof.
  unfold url.pairs. induction l as [|kv [|kv' l] IH]; [done | |].
  - cbn [fmap list_fmap strings.Join].
    rewrite Split_no_separator by (apply escaped_pair_no_separator; auto).
    simpl. by rewrite parsePair_escaped.
  - change (strings.Join (escaped_pair <$> kv :: kv' :: l) "&")
      with (escaped_pair kv +:+ String "&" (strings.Join (escaped_pair <$> kv' :: l) "&")).
    rewrite Split_append by (apply escaped_pair_no_separator; auto).
    cbn [omap list_omap]. rewrite parsePair_escaped. f_equal. apply IH.
Qed.

Lemma values_of_app (k : string) (l1 l2 : list (string * string)) :
  values_of k (l1 ++ l2) = values_of k l1 ++ values_of k l2.
Proof. unfold values_of. by rewrite filter_app, fmap_app. Qed.

Lemma values_of_key (k k' : string) (vs : list string) :
  values_of k ((fun x => (k', x)) <$> vs) = if decide (k' = k) then vs else [].
Proof.
  induction vs as [|x vs IH]; [by case_decide|].
  rewrite fmap_cons, values_of_cons, IH. by case_decide.
Qed.

Lemma values_of_flat_map (v : url.Values) (k : string) (keys : list string) :
  NoDup keys →
  values_of k (flat_map (fun k => (fun x => (k, x)) <$> default [] (v !! k)) keys)
  = if decide (k ∈ keys) then default [] (v !! k) else [].
Proof.
  induction 1 as [|k' keys Hnotin Hnd IH]; [done|].
  cbn [flat_map]. rewrite values_of_app, values_of_key, IH.
  destruct (decide (k' = k)) as [->|Hne].
  - rewrite (decide_False (P := k ∈ keys)) by done.
    rewrite decide_True by apply list_elem_of_here. by rewrite app_nil_r.
  - destruct (decide (k ∈ keys)) as [Hin|Hin].
    + by rewrite decide_True by (by apply list_elem_of_further).
    + rewrite decide_False; [done|]. by intros [?|?]%elem_of_cons.
Qed.

Lemma values_of_sorted_pairs (v : url.Values) (k : string) :
  values_of k (sorted_pairs v) = default [] (v !! k).
Proof.
  unfold sorted_pairs.
  assert (sort_Strings (map fst (map_to_list v)) ≡ₚ (map_to_list v).*1) as Hperm
    by apply merge_sort_Permutation.
  rewrite values_of_flat_map.
  - case_decide as Hin; [done|]. destruct (v !! k) as [vs|] eqn:Hk; [|done].
    exfalso. apply Hin. rewrite Hperm. apply list_elem_of_fmap.
    exists (k, vs). split; [done|]. by apply elem_of_map_to_list.
  - rewrite Hperm. apply NoDup_fst_map_to_list.
Qed.

(** [ParseQuery] undoes [Encode] on every map that gives each of its keys
    at least one value. *)
Lemma ParseQuery_Encode (v : url.Values) :
  (∀ k, v !! k ≠ Some []) → url.ParseQuery (url.Encode v) = v.
Proof.
  intros Hne. apply map_eq. intros k.
  rewrite ParseQuery_lookup, Encode_Join, pairs_Join, values_of_sorted_pairs.
  specialize (Hne k). destruct (v !! k) as [[|x vs]|]; done.
Qed.

(** ** [AuthorizeUrl] *)

Lemma ParseQuery_nonempty_values (query k : string) : url.ParseQuery query !! k ≠ Some [].
Proof. rewrite ParseQuery_lookup. by destruct (values_of k (url.pairs query)). Qed.

Lemma Set_nonempty_values (v : url.Values) (key value : string) :
  (∀ k, v !! k ≠ Some []) → ∀ k, url.Set_ v key value !! k ≠ Some [].
Proof.
  intros Hv k. unfold url.Set_. destruct (decide (key = k)) as [->|Hne].
  - by rewrite lookup_insert_eq.
  - by rewrite lookup_insert_ne.
Qed.

(** *** Base URLs of the form https://host *)

Lemma hostname_cons (c : byte) (s : string) :
  hostname (String c s) = hostname_byte c && hostname s.
Proof. reflexivity. Qed.

Lemma hostname_ContainsByte (host : string) (c : byte) :
  hostname host = true → hostname_byte c = false → strings.ContainsByte host c = false.
Proof.
  intros Hh Hc. induction host as [|d host IH]; [done|].
  rewrite hostname_cons in Hh. apply andb_prop in Hh as [Hd Hh].
  rewrite ContainsByte_cons, IH, orb_false_r by done.
  destruct (Ascii.eqb_spec c d) as [->|]; [congruence | done].
Qed.

Lemma Cut_none (s : string) (sep : byte) :
  strings.ContainsByte s sep = false → strings.Cut s sep = (s, "", false).
Proof.
  induction s as [|d s IH]; intros Hs; [done|].
  rewrite ContainsByte_cons in Hs. apply orb_false_elim in Hs as [Hd Hs].
  cbn [strings.Cut]. by rewrite Ascii.eqb_sym, Hd, IH.
Qed.

Lemma LastIndexByte_none (s : string) (c : byte) :
  strings.ContainsByte s c = false → strings.LastIndexByte s c = None.
Proof.
  induction s as [|d s IH]; intros Hs; [done|].
  rewrite ContainsByte_cons in Hs. apply orb_false_elim in Hs as [Hd Hs].
  cbn [strings.LastIndexByte]. by rewrite IH, Ascii.eqb_sym, Hd.
Qed.

Lemma Index_byte_none (s : string) (c : byte) :
  strings.ContainsByte s c = false → strings.Index s (String c "") = None.
Proof.
  induction s as [|d s IH]; intros Hs; [done|].
  rewrite ContainsByte_cons in Hs. apply orb_false_elim in Hs as [Hd Hs].
  cbn [strings.Index strings.HasPrefix].
  rewrite Ascii.eqb_sym, Hd, IH by done. done.
Qed.

Lemma Count_none (s : string) (c : byte) :
  strings.ContainsByte s c = false → strings.Count s c = O.
Proof.
  unfold strings.Count, bytes_of. induction s as [|d s IH]; intros Hs; [done|].
  rewrite ContainsByte_cons in Hs. apply orb_false_elim in Hs as [Hd Hs].
  cbn [list_ascii_of_string]. rewrite filter_cons, decide_False.
  - by apply IH.
  - intros ->. by rewrite Ascii.eqb_refl in Hd.
Qed.

Lemma hostname_byte_host (c : byte) :
  hostname_byte c = true →
  Ascii.eqb c "%" = false
  ∧ ((N_of_ascii c <? 128) && url.shouldEscape c url.encodeHost = false)
  ∧ url.shouldEscape c url.encodeHost = false
  ∧ ((N_of_ascii c <? 32) || (N_of_ascii c =? 127) = false).
Proof. destruct c as [[] [] [] [] [] [] [] []]; intros H; try discriminate H; done. Qed.

Lemma unescape_hostname (host : string) :
  hostname host = true → url.unescape host url.encodeHost = inl host.
Proof.
  induction host as [|c host IH]; intros Hh; [done|].
  rewrite hostname_cons in Hh. apply andb_prop in Hh as [Hc Hh].
  destruct (hostname_byte_host c Hc) as (Hp & He & _).
  cbn [url.unescape]. rewrite Hp. cbn [andb]. rewrite He, IH by done.
  by rewrite andb_false_r.
Qed.

Lemma escape_hostname (host : string) :
  hostname host = true → url.escape host url.encodeHost = host.
Proof.
  induction host as [|c host IH]; intros Hh; [done|].
  rewrite hostname_cons in Hh. apply andb_prop in Hh as [Hc Hh].
  destruct (hostname_byte_host c Hc) as (_ & _ & He & _).
  cbn [url.escape]. by rewrite He, IH.
Qed.

Lemma hostname_no_CTL (host : string) :
  hostname host = true → URL.stringContainsCTLByte host = false.
Proof.
  unfold URL.stringContainsCTLByte, bytes_of.
  induction host as [|c host IH]; intros Hh; [done|].
  rewrite hostname_cons in Hh. apply andb_prop in Hh as [Hc Hh].
  destruct (hostname_byte_host c Hc) as (_ & _ & _ & Hctl).
  cbn [list_ascii_of_string existsb]. by rewrite Hctl, IH.
Qed.

Lemma getScheme_https (rest : string) :
  URL.getScheme ("https:" +:+ rest) = inl ("https", rest).
Proof. reflexivity. Qed.

(** [url.Parse] on https://host: the scheme and the host, nothing else. *)
Lemma parse_https_host (host : string) :
  hostname host = true →
  URL.parse ("https://" +:+ host)
  = inl (URL.mk "https" "" None host "" "" false false "" "" "").
Proof.
  intros Hh.
  assert (∀ c, hostname_byte c = false → strings.ContainsByte host c = false) as Hno
    by (intros; by apply hostname_ContainsByte).
  unfold URL.parse.
  assert (URL.stringContainsCTLByte ("https://" +:+ host) = false) as ->.
  { pose proof (hostname_no_CTL host Hh) as H. unfold URL.stringContainsCTLByte in *.
    rewrite bytes_of_app, existsb_app, H. reflexivity. }
  change (String.eqb ("https://" +:+ host) "*") with false. cbv iota.
  change ("https://" +:+ host) with ("https:" +:+ ("//" +:+ host)).
  rewrite getScheme_https.
  change (strings.ToLower "https") with "https".
  assert (strings.ContainsByte ("//" +:+ host) "?" = false) as Hq
    by (rewrite ContainsByte_app, Hno; done).
  rewrite (Count_none _ _ Hq), (Cut_none _ _ Hq). cbn [Nat.eqb andb].
  replace (strings.HasPrefix ("//" +:+ host) "/") with true by reflexivity.
  replace (strings.HasPrefix ("//" +:+ host) "//") with true by (by destruct host).
  replace (String.eqb "https" "") with false by reflexivity.
  cbn [negb andb orb].
  assert (strings.from 2 ("//" +:+ host) = host) as -> by apply string_of_bytes_of.
  rewrite (Index_byte_none host "/") by (by apply Hno).
  unfold URL.parseAuthority.
  rewrite (LastIndexByte_none host "@") by (by apply Hno).
  unfold URL.parseHost.
  assert (strings.HasPrefix host "[" = false) as ->.
  { destruct host as [|c host]; [done|]. rewrite hostname_cons in Hh.
    apply andb_prop in Hh as [Hc _]. cbn [strings.HasPrefix].
    destruct (Ascii.eqb_spec c "[") as [->|]; [discriminate Hc | done]. }
  rewrite (LastIndexByte_none host ":") by (by apply Hno).
  rewrite unescape_hostname by done. reflexivity.
Qed.

Lemma Parse_https_host (host : string) :
  hostname host = true →
  URL.Parse ("https://" +:+ host)
  = inl (URL.mk "https" "" None host "" "" false false "" "" "").
Proof.
  intros Hh. unfold URL.Parse.
  rewrite Cut_none by (rewrite ContainsByte_app, (hostname_ContainsByte host) by done; done).
  by rewrite parse_https_host.
Qed.

(** [u.String()] on the URL [AuthorizeUrl] builds from such a base. *)
Lemma String_https_host (host query : string) :
  hostname host = true →
  query ≠ "" →
  URL.String_
    (URL.mk "https" "" None host "/admin/oauth/authorize" "" false false query "" "")
  = "https://" +:+ host +:+ "/admin/oauth/authorize?" +:+ query.
Proof.
  intros Hh Hq. unfold URL.String_.
  assert (∀ h q, URL.EscapedPath
                   (URL.mk "https" "" None h "/admin/oauth/authorize" "" false false q "" "")
                 = "/admin/oauth/authorize") as -> by reflexivity.
  assert (∀ h q, URL.EscapedFragment
                   (URL.mk "https" "" None h "/admin/oauth/authorize" "" false false q "" "")
                 = "") as -> by reflexivity.
  cbn [URL.Scheme URL.Opaque URL.User URL.Host URL.Path URL.RawPath URL.OmitHost
       URL.ForceQuery URL.RawQuery URL.Fragment URL.RawFragment].
  rewrite (escape_hostname host Hh).
  change (URL.nonempty "https") with true.
  change (URL.nonempty "") with false.
  change (URL.nonempty "/admin/oauth/authorize") with true.
  change (strings.HasPrefix "/admin/oauth/authorize" "/") with true.
  replace (bool_decide (@None URL.Userinfo ≠ None)) with false by reflexivity.
  cbn [negb andb orb].
  replace (strings.ContainsByte (strings.Cut "/admin/oauth/authorize" "/").1.1 ":")
    with false by reflexivity.
  rewrite andb_false_r.
  replace (URL.nonempty query) with true by (by destruct query).
  replace (if URL.nonempty host then host else "") with host by (by destruct host).
  rewrite orb_true_r. cbn [orb].
  change (("https" +:+ ":") +:+ "//" +:+ "" +:+ host) with ("https://" +:+ host).
  rewrite !append_assoc. reflexivity.
Qed.

(** *** Parsing the URL [AuthorizeUrl] returns *)

Lemma forallb_ContainsByte (P : byte → bool) (s : string) (c : byte) :
  forallb P (bytes_of s) = true → P c = false → strings.ContainsByte s c = false.
Proof.
  intros Hs Hc. unfold strings.ContainsByte. apply not_true_is_false. intros Hex.
  apply existsb_exists in Hex as (d & Hd & Heq). apply Ascii.eqb_eq in Heq as <-.
  rewrite forallb_forall in Hs. rewrite (Hs c Hd) in Hc. discriminate Hc.
Qed.

Lemma query_text_app (s t : string) :
  query_text (s +:+ t) = query_text s && query_text t.
Proof. unfold query_text. by rewrite bytes_of_app, forallb_app. Qed.

Lemma QueryEscape_query_text (s : string) : query_text (url.QueryEscape s) = true.
Proof.
  unfold url.QueryEscape. induction s as [|c s IH]; [done|].
  rewrite escape_cons, query_text_app, IH, andb_true_r.
  destruct c as [[] [] [] [] [] [] [] []]; reflexivity.
Qed.

Lemma query_text_no_CTL (q : string) :
  query_text q = true → URL.stringContainsCTLByte q = false.
Proof.
  intros Hq. unfold URL.stringContainsCTLByte. apply not_true_is_false. intros Hex.
  apply existsb_exists in Hex as (c & Hc & Hctl).
  unfold query_text in Hq. rewrite forallb_forall in Hq. specialize (Hq c Hc).
  destruct c as [[] [] [] [] [] [] [] []]; discriminate Hq || discriminate Hctl.
Qed.

Lemma stringContainsCTLByte_app (s t : string) :
  URL.stringContainsCTLByte (s +:+ t)
  = URL.stringContainsCTLByte s || URL.stringContainsCTLByte t.
Proof. unfold URL.stringContainsCTLByte. by rewrite bytes_of_app, existsb_app. Qed.

Lemma length_append (s t : string) :
  String.length (s +:+ t) = (String.length s + String.length t)%nat.
Proof. induction s as [|c s IH]; [done|]. rewrite append_cons. simpl. by rewrite IH. Qed.

Lemma LastIndexByte_append (p q : string) (c : byte) :
  strings.ContainsByte q c = false →
  strings.LastIndexByte (p +:+ String c q) c = Some (String.length p).
Proof.
  intros Hq. induction p as [|d p IH].
  - change ("" +:+ String c q) with (String c q). cbn [strings.LastIndexByte].
    by rewrite LastIndexByte_none, Ascii.eqb_refl.
  - rewrite append_cons. cbn [strings.LastIndexByte]. by rewrite IH.
Qed.

Lemma Index_byte_append (p r : string) (c : byte) :
  strings.ContainsByte p c = false →
  strings.Index (p +:+ String c r) (String c "") = Some (String.length p).
Proof.
  induction p as [|d p IH]; intros Hp.
  - change ("" +:+ String c r) with (String c r). cbn [strings.Index strings.HasPrefix].
    rewrite Ascii.eqb_refl. by destruct r.
  - rewrite ContainsByte_cons in Hp. apply orb_false_elim in Hp as [Hd Hp].
    rewrite append_cons. cbn [strings.Index strings.HasPrefix].
    rewrite Ascii.eqb_sym, Hd, IH by done. done.
Qed.

Lemma to_length_append (p r : string) : strings.to (String.length p) (p +:+ r) = p.
Proof.
  unfold strings.to. rewrite bytes_of_app, <- bytes_of_length, take_app_length.
  apply string_of_bytes_of.
Qed.

Lemma from_length_append (p r : string) : strings.from (String.length p) (p +:+ r) = r.
Proof.
  unfold strings.from. rewrite bytes_of_app, <- bytes_of_length, drop_app_length.
  apply string_of_bytes_of.
Qed.

Lemma parseAuthority_hostname (host : string) :
  hostname host = true → URL.parseAuthority host = inl (None, host).
Proof.
  intros Hh.
  assert (∀ c, hostname_byte c = false → strings.ContainsByte host c = false) as Hno
    by (intros; by apply hostname_ContainsByte).
  unfold URL.parseAuthority.
  rewrite (LastIndexByte_none host "@") by (by apply Hno).
  unfold URL.parseHost.
  assert (strings.HasPrefix host "[" = false) as ->.
  { destruct host as [|c host]; [done|]. rewrite hostname_cons in Hh.
    apply andb_prop in Hh as [Hc _]. cbn [strings.HasPrefix].
    destruct (Ascii.eqb_spec c "[") as [->|]; [discriminate Hc | done]. }
  rewrite (LastIndexByte_none host ":") by (by apply Hno).
  by rewrite unescape_hostname.
Qed.

Lemma parse_authorize (host q : string) :
  hostname host = true → query_text q = true → q ≠ "" →
  URL.parse ("https:" +:+ ("//" +:+ host +:+ "/admin/oauth/authorize") +:+ String "?" q)
  = inl (URL.mk "https" "" None host "/admin/oauth/authorize" "" false false q "" "").
Proof.
  intros Hh Hq Hne.
  assert (∀ c, hostname_byte c = false → strings.ContainsByte host c = false) as Hno
    by (intros; by apply hostname_ContainsByte).
  assert (strings.ContainsByte q "?" = false) as Hq1
    by (by apply (forallb_ContainsByte query_byte)).
  assert (strings.ContainsByte ("//" +:+ host +:+ "/admin/oauth/authorize") "?" = false)
    as Hp1.
  { rewrite !ContainsByte_app, Hno by done. reflexivity. }
  unfold URL.parse.
  assert (URL.stringContainsCTLByte
            ("https:" +:+ ("//" +:+ host +:+ "/admin/oauth/authorize") +:+ String "?" q)
          = false) as ->.
  { change (String "?" q) with ("?" +:+ q).
    rewrite !stringContainsCTLByte_app, (hostname_no_CTL host), (query_text_no_CTL q)
      by done.
    reflexivity. }
  replace (String.eqb _ "*") with false by reflexivity. cbv iota.
  rewrite getScheme_https.
  change (strings.ToLower "https") with "https".
  rewrite LastIndexByte_append, Cut_append by done.
  rewrite (bool_decide_eq_false_2 (Some _ = Some _)).
  2:{ intros [= Hlen]. rewrite !length_append in Hlen. destruct q; [done|].
      cbn [String.length] in Hlen. lia. }
  rewrite andb_false_r.
  replace (strings.HasPrefix ("//" +:+ host +:+ "/admin/oauth/authorize") "/")
    with true by reflexivity.
  replace (strings.HasPrefix ("//" +:+ host +:+ "/admin/oauth/authorize") "//")
    with true by (by destruct host).
  replace (String.eqb "https" "") with false by reflexivity.
  cbn [negb andb orb].
  assert (strings.from 2 ("//" +:+ host +:+ "/admin/oauth/authorize")
          = host +:+ String "/" "admin/oauth/authorize") as ->
    by apply string_of_bytes_of.
  rewrite Index_byte_append, to_length_append, from_length_append by (by apply Hno).
  rewrite parseAuthority_hostname by done. reflexivity.
Qed.

Lemma Parse_authorize (host q : string) :
  hostname host = true → query_text q = true → q ≠ "" →
  URL.Parse ("https://" +:+ host +:+ "/admin/oauth/authorize?" +:+ q)
  = inl (URL.mk "https" "" None host "/admin/oauth/authorize" "" false false q "" "").
Proof.
  intros Hh Hq Hne. unfold URL.Parse. rewrite Cut_none.
  - replace ("https://" +:+ host +:+ "/admin/oauth/authorize?" +:+ q)
      with ("https:" +:+ ("//" +:+ host +:+ "/admin/oauth/authorize") +:+ String "?" q)
      by (rewrite !append_assoc; reflexivity).
    by rewrite parse_authorize.
  - rewrite !ContainsByte_app, (hostname_ContainsByte host),
      (forallb_ContainsByte query_byte q) by done.
    reflexivity.
Qed.

(** What the spec assumes of [ShopBaseUrl]: every shop name of the basic
    shape resolves to https:// followed by a host name. *)
Lemma ShopBaseUrl_spec_shape (rejected : string → string) (name : string) :
  shop_name name = true →
  ∃ host, ShopBaseUrl_spec rejected name = "https://" +:+ host ∧ hostname host = true.
Proof.
  intros Hname. exists (name +:+ ".myshopify.com"). unfold ShopBaseUrl_spec.
  rewrite Hname. split; [done|].
  apply andb_prop in Hname as [_ Hname].
  unfold hostname. rewrite bytes_of_app, forallb_app. apply andb_true_intro.
  split; [|reflexivity].
  rewrite forallb_forall in *. intros c Hc. specialize (Hname c Hc).
  unfold hostname_byte. apply orb_prop in Hname as [-> | Heq]; [done|].
  apply Ascii.eqb_eq in Heq as ->. reflexivity.
Qed.

(** C8.  For every shop name that [ShopBaseUrl] resolves to a base URL
    https://host, the host name made of letters, digits, '-' and '.' (what
    the spec assumes of the resolution), and every app and state,
    [AuthorizeUrl] returns a URL [s] that parses, whose path is
    /admin/oauth/authorize and whose query holds exactly the four keys
    client_id, redirect_uri, scope and state, each present also when its
    value is empty, bound to the API key, the redirect URL, the scope and the
    given state.  The raw query is the four pairs by ascending key, the
    values query-escaped; [s] is the text of the URL value [u] the function
    built, and parsing [s] gives [u] back. *)
Theorem C8_AuthorizeUrl_query
    (ShopBaseUrl : string → string) (app : App) (shopName state host : string) :
  ShopBaseUrl shopName = "https://" +:+ host →
  hostname host = true →
  let query : url.Values :=
    <["state" := [state]]> (<["scope" := [Scope app]]>
      (<["redirect_uri" := [RedirectUrl app]]> (<["client_id" := [ApiKey app]]> ∅))) in
  ∃ (s : string) (u : URL.t),
    AuthorizeUrl ShopBaseUrl app shopName state = Some s
    ∧ AuthorizeUrl_shopUrl ShopBaseUrl app shopName state = Some u
    ∧ URL.String_ u = s
    ∧ URL.Parse s = inl u
    ∧ (URL.Scheme u, URL.Host u) = ("https", host)
    ∧ URL.Path u = "/admin/oauth/authorize"
    ∧ URL.Query u = query
    ∧ (∀ k, is_Some (query !! k) ↔ k ∈ ["client_id"; "redirect_uri"; "scope"; "state"])
    ∧ query !! "client_id" = Some [ApiKey app]
    ∧ query !! "redirect_uri" = Some [RedirectUrl app]
    ∧ query !! "scope" = Some [Scope app]
    ∧ query !! "state" = Some [state]
    ∧ URL.RawQuery u
      = "client_id=" +:+ url.QueryEscape (ApiKey app)
        +:+ "&redirect_uri=" +:+ url.QueryEscape (RedirectUrl app)
        +:+ "&scope=" +:+ url.QueryEscape (Scope app)
        +:+ "&state=" +:+ url.QueryEscape state.
Proof.
  intros Hbase Hh query.
  set (q := "client_id=" +:+ url.QueryEscape (ApiKey app)
            +:+ "&redirect_uri=" +:+ url.QueryEscape (RedirectUrl app)
            +:+ "&scope=" +:+ url.QueryEscape (Scope app)
            +:+ "&state=" +:+ url.QueryEscape state).
  assert (url.Encode query = q) as Henc by (rewrite Encode_Join; reflexivity).
  assert (query_text q = true) as Hq.
  { subst q. rewrite !query_text_app, !QueryEscape_query_text. reflexivity. }
  assert (q ≠ "") as Hne by (subst q; discriminate).
  set (u := URL.mk "https" "" None host "/admin/oauth/authorize" "" false false q "" "").
  assert (AuthorizeUrl_shopUrl ShopBaseUrl app shopName state = Some u) as Hu.
  { unfold AuthorizeUrl_shopUrl. rewrite Hbase, Parse_https_host by done.
    subst u. rewrite <- Henc. reflexivity. }
  exists ("https://" +:+ host +:+ "/admin/oauth/authorize?" +:+ q), u.
  assert (URL.String_ u = "https://" +:+ host +:+ "/admin/oauth/authorize?" +:+ q) as Hs
    by (by apply String_https_host).
  split; [unfold AuthorizeUrl; rewrite Hu, <- Hs; reflexivity|].
  split; [exact Hu|]. split; [exact Hs|].
  split; [by apply Parse_authorize|].
  split; [reflexivity|]. split; [reflexivity|].
  split.
  { unfold URL.Query. cbn [u URL.RawQuery]. rewrite <- Henc. apply ParseQuery_Encode.
    subst query. do 4 apply Set_nonempty_values. intros k. by rewrite lookup_empty. }
  subst query. clear - app state. split.
  { intros k. rewrite !lookup_insert_is_Some, lookup_empty, is_Some_alt.
    rewrite !elem_of_cons, elem_of_nil.
    split.
    + intros [<-|[_ [<-|[_ [<-|[_ [<-|[_ []]]]]]]]]; tauto.
    + intros [->|[->|[->|[->|[]]]]]; [| | |tauto];
        repeat (right; split; [done|]); by left. }
  split; [by simplify_map_eq|]. split; [by simplify_map_eq|].
  split; [by simplify_map_eq|]. split; [by simplify_map_eq|]. reflexivity.
Qed.

(** The scenario of the spec: shop "acme", API key "k1", redirect
    "https://app.example/cb", scope "read_products", state "xyz". *)
Lemma C8_AuthorizeUrl_query_witness :
  let app := mkApp "k1" "hush" "https://app.example/cb" "read_products" in
  let s := "https://acme.myshopify.com/admin/oauth/authorize"
           +:+ "?client_id=k1&redirect_uri=https%3A%2F%2Fapp.example%2Fcb"
           +:+ "&scope=read_products&state=xyz" in
  AuthorizeUrl (ShopBaseUrl_spec (fun _ => "")) app "acme" "xyz" = Some s
  ∧ ∃ u, URL.Parse s = inl u
         ∧ URL.Path u = "/admin/oauth/authorize"
         ∧ URL.RawQuery u
           = "client_id=k1&redirect_uri=https%3A%2F%2Fapp.example%2Fcb"
             +:+ "&scope=read_products&state=xyz"
         ∧ URL.Query u
           = {[ "client_id" := ["k1"]; "redirect_uri" := ["https://app.example/cb"];
                "scope" := ["read_products"]; "state" := ["xyz"] ]}.
Proof.
  intros app s.
  destruct (C8_AuthorizeUrl_query (ShopBaseUrl_spec (fun _ => "")) app "acme" "xyz"
              "acme.myshopify.com" ltac:(reflexivity) ltac:(reflexivity))
    as (s' & u & Hs & _ & _ & Hparse & _ & Hpath & Hquery & _ & _ & _ & _ & _ & Hraw).
  assert (s' = s) as -> by (vm_compute in Hs; by injection Hs as <-).
  split; [done|]. exists u. split; [done|]. split; [done|]. split.
  - rewrite Hraw. vm_compute. reflexivity.
  - rewrite Hquery. vm_compute. reflexivity.
Defined.


(** * Further properties of oauth.go *)

(** ** The letter case of a MAC *)

Lemma list_ind2 {A} (P : list A → Prop) :
  P [] → (∀ a, P [a]) → (∀ a b l, P l → P (a :: b :: l)) → ∀ l, P l.
Proof.
  intros H0 H1 H2 l. cut (P l ∧ ∀ a, P (a :: l)); [tauto|].
  induction l as [|x l [IH0 IH1]]; [auto|]. split; [apply IH1|]. intros a. by apply H2.
Qed.

Lemma ToLower_bytes (s : string) :
  ∃ f : byte → byte,
    strings.ToLower s = string_of (map f (bytes_of s))
    ∧ (∀ c, hex.fromHexChar (f c) = hex.fromHexChar c)
    ∧ (∀ n, f (hex.digit n) = hex.digit n).
Proof.
  eexists. split; [reflexivity|]. split.
  - intros c. destruct c as [[] [] [] [] [] [] [] []]; reflexivity.
  - intros n. unfold hex.digit.
    destruct (N.to_nat n) as [|k]; [reflexivity|].
    do 16 (destruct k as [|k]; [reflexivity|]). by destruct k.
Qed.

Lemma hex_Decode_map (f : byte → byte) (src : bytes) :
  (∀ c, hex.fromHexChar (f c) = hex.fromHexChar c) →
  (hex.Decode (map f src)).1 = (hex.Decode src).1.
Proof.
  intros Hf. induction src as [|p|p q src IH] using list_ind2; [done| |].
  - cbn [map hex.Decode]. rewrite Hf. by destruct (hex.fromHexChar p).
  - cbn [map]. cbn [hex.Decode]. rewrite !Hf.
    destruct (hex.fromHexChar p); [|done]. destruct (hex.fromHexChar q); [|done].
    destruct (hex.Decode (map f src)), (hex.Decode src). simpl in *. by subst.
Qed.

Lemma hex_DecodeString_ToLower (s : string) :
  (hex.DecodeString (strings.ToLower s)).1 = (hex.DecodeString s).1.
Proof.
  destruct (ToLower_bytes s) as (f & -> & Hf & _). unfold hex.DecodeString.
  rewrite bytes_of_string_of. by apply hex_Decode_map.
Qed.

Lemma hex_EncodeToString_lower (src : bytes) :
  strings.ToLower (hex.EncodeToString src) = hex.EncodeToString src.
Proof.
  destruct (ToLower_bytes (hex.EncodeToString src)) as (f & -> & _ & Hf).
  unfold hex.EncodeToString. rewrite bytes_of_string_of. f_equal.
  induction src as [|v src IH]; [done|]. cbn [hex.Encode map]. by rewrite !Hf, IH.
Qed.

(** X1.  [VerifyMessage] does not look at the letter case of the MAC it is
    given: two strings that agree once their letters are put in lower case
    get the same answer, so the right MAC is accepted in upper-case hex too.
    [hmacSHA256], which compares against the text [hex.Encode] writes,
    accepts only a text without upper-case letters. *)
Theorem X1_mac_letter_case (app : App) (message mac1 mac2 : string) :
  strings.ToLower mac1 = strings.ToLower mac2 →
  VerifyMessage app message mac1 = VerifyMessage app message mac2
  ∧ (∀ key body : bytes,
       hmacSHA256 key body (bytes_of mac1) = true → strings.ToLower mac1 = mac1).
Proof.
  intros Hcase. split.
  - rewrite !VerifyMessage_unfold.
    by rewrite <- (hex_DecodeString_ToLower mac1), <- (hex_DecodeString_ToLower mac2), Hcase.
  - intros key body ->%hmacSHA256_true. apply hex_EncodeToString_lower.
Qed.

Lemma X1_mac_letter_case_witness :
  let app := mkApp "k1" "hush" "https://app.example/cb" "read_products" in
  VerifyMessage app "code=abc&shop=acme"
    "D2B687F39D659FBF35CDF1C9B0C1388F9C45ED0ED151AF7AB476EBC24101A7D4" = true
  ∧ hmacSHA256 (bytes_of "hush") (bytes_of "code=abc&shop=acme")
      (bytes_of "D2B687F39D659FBF35CDF1C9B0C1388F9C45ED0ED151AF7AB476EBC24101A7D4") = false.
Proof.
  intros app.
  destruct (X1_mac_letter_case app "code=abc&shop=acme"
              "D2B687F39D659FBF35CDF1C9B0C1388F9C45ED0ED151AF7AB476EBC24101A7D4"
              "d2b687f39d659fbf35cdf1c9b0c1388f9c45ed0ed151af7ab476ebc24101a7d4")
    as [H _]; [vm_compute; reflexivity|].
  split; [rewrite H|]; vm_compute; reflexivity.
Defined.

(** ** Secrets that make the same key *)

Lemma hmac_New_zero_padded (key : bytes) :
  (length key < sha256.BlockSize)%nat →
  hmac.New (key ++ [byte_of_N 0]) = hmac.New key.
Proof.
  intros Hlen. unfold sha256.BlockSize in Hlen.
  assert ((key ++ [byte_of_N 0])
            ++ replicate (64 - length (key ++ [byte_of_N 0])) (byte_of_N 0)
          = key ++ replicate (64 - length key) (byte_of_N 0)) as Hpad.
  { rewrite length_app. cbn [length].
    replace (64 - length key)%nat with (S (64 - (length key + 1))) by lia.
    cbn [replicate]. by rewrite <- app_assoc. }
  unfold hmac.New, sha256.BlockSize.
  rewrite (proj2 (Nat.ltb_ge 64 (length (key ++ [byte_of_N 0]))))
    by (rewrite length_app; simpl; lia).
  rewrite (proj2 (Nat.ltb_ge 64 (length key))) by lia.
  cbn zeta. by rewrite Hpad.
Qed.

Lemma hmac_New_long_key (key : bytes) :
  (sha256.BlockSize < length key)%nat →
  hmac.New (sha256.Sum256 key) = hmac.New key.
Proof.
  intros Hlen. unfold hmac.New. rewrite Sum256_length.
  destruct (Nat.ltb_spec sha256.BlockSize 32) as [H|_]; [unfold sha256.BlockSize in H; lia|].
  destruct (Nat.ltb_spec sha256.BlockSize (length key)) as [_|?]; [|lia].
  by rewrite Sum256_length.
Qed.

Lemma same_key_same_answers (app app' : App) :
  hmac.New (bytes_of (ApiSecret app')) = hmac.New (bytes_of (ApiSecret app)) →
  (∀ message mac, VerifyMessage app' message mac = VerifyMessage app message mac)
  ∧ (∀ u, VerifyAuthorizationURL app' u = VerifyAuthorizationURL app u)
  ∧ (∀ req, VerifyWebhookRequest app' req = VerifyWebhookRequest app req)
  ∧ (∀ range u, VerifySignature_range range app' u = VerifySignature_range range app u).
Proof.
  intros Hkey.
  assert (∀ msg, hmac_sha256 (bytes_of (ApiSecret app')) msg
                 = hmac_sha256 (bytes_of (ApiSecret app)) msg) as Hmac.
  { intros msg. unfold hmac_sha256. by rewrite Hkey. }
  assert (∀ message mac, VerifyMessage app' message mac = VerifyMessage app message mac)
    as Hvm by (intros; by rewrite !VerifyMessage_unfold, Hmac).
  split; [done|]. split; [|split].
  - intros u. by rewrite !VerifyAuthorizationURL_unfold, Hvm.
  - intros req. by rewrite !VerifyWebhookRequest_unfold, Hmac.
  - intros range u. by rewrite !VerifySignature_range_unfold, !hmacSHA256_unfold, Hmac.
Qed.

(** X2.  The verifiers do not tell apart secrets that make the same HMAC
    key: a secret shorter than the 64-byte block and that secret followed
    by a zero byte, or a secret longer than the block and the 32 bytes of
    its SHA-256 digest.  Whatever one app verifies, the other verifies. *)
Theorem X2_equivalent_secrets (app app' : App) :
  (String.length (ApiSecret app) < 64)%nat
    ∧ ApiSecret app' = ApiSecret app +:+ String (byte_of_N 0) ""
  ∨ (64 < String.length (ApiSecret app))%nat
    ∧ bytes_of (ApiSecret app') = sha256.Sum256 (bytes_of (ApiSecret app)) →
  (∀ message mac, VerifyMessage app' message mac = VerifyMessage app message mac)
  ∧ (∀ u, VerifyAuthorizationURL app' u = VerifyAuthorizationURL app u)
  ∧ (∀ req, VerifyWebhookRequest app' req = VerifyWebhookRequest app req)
  ∧ (∀ range u, VerifySignature_range range app' u = VerifySignature_range range app u).
Proof.
  intros H. apply same_key_same_answers. destruct H as [[Hlen ->] | [Hlen ->]].
  - rewrite bytes_of_app. apply hmac_New_zero_padded. by rewrite bytes_of_length.
  - apply hmac_New_long_key. by rewrite bytes_of_length.
Qed.

(** The webhook signed under "hush" verifies under "hush" followed by a
    zero byte. *)
Lemma X2_equivalent_secrets_witness :
  let app := mkApp "k1" "hush" "https://app.example/cb" "read_products" in
  let app' := mkApp "k1" ("hush" +:+ String (byte_of_N 0) "")
                    "https://app.example/cb" "read_products" in
  (VerifyWebhookRequest app'
     (webhook "UmUQbJ7v4QC0SmGNHP805/sdzbvRIn57nvinWo2JchU=" "abc")).1 = true.
Proof.
  intros app app'.
  destruct (X2_equivalent_secrets app app') as (_ & _ & H & _).
  - left. split; [vm_compute; lia | reflexivity].
  - rewrite H. vm_compute. reflexivity.
Defined.

(** ** What the verbose variant accepts *)

Lemma Verbose_true (app : App) (req : http.Request) :
  (VerifyWebhookRequestVerbose app req).1 = (true, None)
  ↔ ApiSecret app ≠ ""
    ∧ io.failure (http.Body req) = None
    ∧ io.pending (http.Body req) ≠ []
    ∧ base64.DecodeString (http.Get (http.Header_ req) shopifyChecksumHeader)
      = inl (hmac_sha256 (bytes_of (ApiSecret app)) (io.pending (http.Body req))).
Proof.
  destruct (decide (ApiSecret app = "")) as [Hs|Hs].
  { rewrite Verbose_secret_empty by done. split; [done | tauto]. }
  destruct (decide (http.Get (http.Header_ req) shopifyChecksumHeader = "")) as [Hh|Hh].
  { rewrite Verbose_header_empty by done. split; [done|]. intros (_ & _ & _ & Hd).
    rewrite Hh in Hd. apply (f_equal (fun r => match r with inl d => length d | inr _ => O end)) in Hd.
    by rewrite hmac_sha256_length in Hd. }
  rewrite Verbose_decoded by done.
  destruct (base64.DecodeString _) as [received|err]; [|split; [done | by intros (_ & _ & _ & ?)]].
  case_bool_decide as Hlen.
  2:{ split; [done|]. intros (_ & _ & _ & [= ->]). by rewrite hmac_sha256_length in Hlen. }
  destruct (io.failure (http.Body req)) as [err|]; [split; [done | by intros (_ & ? & _)]|].
  cbn zeta. case_bool_decide as Hbody; [split; [done | tauto]|].
  case_bool_decide as Hmac.
  - subst received. done.
  - split; [done|]. intros (_ & _ & _ & [= ?]). done.
Qed.

Lemma Verbose_ok_iff_nil (app : App) (req : http.Request) :
  (VerifyWebhookRequestVerbose app req).1.1 = true
  ↔ (VerifyWebhookRequestVerbose app req).1.2 = None.
Proof.
  destruct (decide (ApiSecret app = "")) as [Hs|Hs].
  { by rewrite Verbose_secret_empty. }
  destruct (decide (http.Get (http.Header_ req) shopifyChecksumHeader = "")) as [Hh|Hh].
  { by rewrite Verbose_header_empty. }
  rewrite Verbose_decoded by done.
  destruct (base64.DecodeString _) as [received|err]; [|done].
  case_bool_decide; [|done].
  destruct (io.failure (http.Body req)); [done|]. cbn zeta.
  repeat case_bool_decide; done.
Qed.

(** X3.  The two results of [VerifyWebhookRequestVerbose] agree: it returns
    true exactly when it returns a nil error.  And it returns (true, nil)
    exactly when the secret is not empty, the body was read to the end and
    is not empty, and the header base64-decodes to the HMAC-SHA256 of the
    body under the secret. *)
Theorem X3_verbose_accepts_exactly (app : App) (req : http.Request) :
  ((VerifyWebhookRequestVerbose app req).1.1 = true
   ↔ (VerifyWebhookRequestVerbose app req).1.2 = None)
  ∧ ((VerifyWebhookRequestVerbose app req).1 = (true, None)
     ↔ ApiSecret app ≠ ""
       ∧ io.failure (http.Body req) = None
       ∧ io.pending (http.Body req) ≠ []
       ∧ base64.DecodeString (http.Get (http.Header_ req) shopifyChecksumHeader)
         = inl (hmac_sha256 (bytes_of (ApiSecret app)) (io.pending (http.Body req)))).
Proof. split; [apply Verbose_ok_iff_nil | apply Verbose_true]. Qed.

(** X4.  On a request the verbose variant has no precondition against (a
    secret that is not empty, a body read to the end and not empty), what
    the silent variant accepts the verbose variant accepts.  The converse
    fails: the verbose variant compares decoded bytes, so it accepts every
    base64 text of the MAC, while the silent variant accepts only the text
    [EncodeToString] writes. *)
Theorem X4_silent_accepts_less (app : App) (req : http.Request) :
  ApiSecret app ≠ "" →
  io.failure (http.Body req) = None →
  io.pending (http.Body req) ≠ [] →
  let header := http.Get (http.Header_ req) shopifyChecksumHeader in
  let mac := hmac_sha256 (bytes_of (ApiSecret app)) (io.pending (http.Body req)) in
  ((VerifyWebhookRequest app req).1 = true →
   (VerifyWebhookRequestVerbose app req).1 = (true, None))
  ∧ (base64.DecodeString header = inl mac → header ≠ base64.EncodeToString mac →
     (VerifyWebhookRequestVerbose app req).1 = (true, None)
     ∧ (VerifyWebhookRequest app req).1 = false).
Proof.
  intros Hs Hok Hbody header mac. split.
  - rewrite VerifyWebhookRequest_result. intros Hh%bool_decide_eq_true.
    apply Verbose_true. repeat split; try done.
    rewrite Hh. apply base64_DecodeString_EncodeToString.
  - intros Hd Hne. split; [by apply Verbose_true|].
    by apply VerifyWebhookRequest_tampered_header.
Qed.

(** The header of the webhook "abc" under "hush" with its last digit "U"
    changed to "V": the two bits that differ are padding, the decoded bytes
    are the same. *)
Lemma X4_silent_accepts_less_witness :
  let app := mkApp "k1" "hush" "https://app.example/cb" "read_products" in
  let req := webhook "UmUQbJ7v4QC0SmGNHP805/sdzbvRIn57nvinWo2JchV=" "abc" in
  (VerifyWebhookRequestVerbose app req).1 = (true, None)
  ∧ (VerifyWebhookRequest app req).1 = false.
Proof.
  intros app req.
  destruct (X4_silent_accepts_less app req) as [_ H];
    [vm_compute; done | vm_compute; done | vm_compute; done |].
  apply H; vm_compute; [reflexivity | intros [=]].
Defined.

(** ** A missing signature *)

Lemma Get_missing (v : url.Values) (key : string) : v !! key = None → url.Get v key = "".
Proof. unfold url.Get. by intros ->. Qed.

Lemma AuthorizationURL_message_nil (u : URL.t) : (AuthorizationURL_message u).2 = None.
Proof. unfold AuthorizationURL_message. by rewrite QueryUnescape_Encode. Qed.

(** X5.  A URL that carries no "hmac" parameter, or an empty one, is
    refused by [VerifyAuthorizationURL], with a nil error; a URL that
    carries no "signature" parameter, or an empty one, is refused by
    [VerifySignature]. *)
Theorem X5_missing_signature_refused (app : App) (u : URL.t) :
  (∀ key, URL.Query u !! key = None → url.Get (URL.Query u) key = "")
  ∧ (url.Get (URL.Query u) "hmac" = "" → VerifyAuthorizationURL app u = (false, None))
  ∧ (url.Get (URL.Query u) "signature" = "" →
     ∀ range, VerifySignature_range range app u = false).
Proof.
  split; [intros key; apply Get_missing|]. split.
  - intros Hmac. rewrite VerifyAuthorizationURL_unfold, AuthorizationURL_message_nil, Hmac.
    f_equal. rewrite VerifyMessage_unfold. apply hmac_Equal_length.
    by rewrite hmac_sha256_length.
  - intros Hsig range. rewrite VerifySignature_range_unfold, Hsig, hmacSHA256_unfold.
    apply hmac_Equal_length. by rewrite hex_Encode_length, hmac_sha256_length.
Qed.

Lemma X5_missing_signature_refused_witness :
  let app := mkApp "k1" "hush" "https://app.example/cb" "read_products" in
  let u := URL.set_RawQuery URL.empty "code=abc&shop=acme" in
  VerifyAuthorizationURL app u = (false, None) ∧ VerifySignature app u = false.
Proof.
  intros app u.
  destruct (X5_missing_signature_refused app u) as (_ & Hc & Hp).
  split; [apply Hc | apply Hp]; vm_compute; reflexivity.
Defined.

(** ** Parameters the verifiers do not see *)

(** X6.  [VerifyAuthorizationURL] does not depend on the "signature"
    parameter: two URLs whose query parameters agree on every other key get
    the same answer, whether "signature" is absent, present or different. *)
Theorem X6_callback_ignores_signature (app : App) (u1 u2 : URL.t) :
  (∀ k, k ≠ "signature" → URL.Query u1 !! k = URL.Query u2 !! k) →
  VerifyAuthorizationURL app u1 = VerifyAuthorizationURL app u2.
Proof.
  intros Hq. rewrite !VerifyAuthorizationURL_unfold.
  assert (url.Get (URL.Query u1) "hmac" = url.Get (URL.Query u2) "hmac") as ->.
  { unfold url.Get. by rewrite Hq. }
  assert (AuthorizationURL_message u1 = AuthorizationURL_message u2) as ->; [|done].
  unfold AuthorizationURL_message. do 2 f_equal. apply map_eq. intros k. unfold url.Del.
  destruct (decide (k = "signature")) as [->|Hk]; [by rewrite !lookup_delete_eq|].
  rewrite !(lookup_delete_ne _ "signature") by done.
  destruct (decide (k = "hmac")) as [->|Hh]; [by rewrite !lookup_delete_eq|].
  rewrite !lookup_delete_ne by done. by apply Hq.
Qed.

Lemma X6_callback_ignores_signature_witness :
  let app := mkApp "k1" "hush" "https://app.example/cb" "read_products" in
  let mac := "hmac=d2b687f39d659fbf35cdf1c9b0c1388f9c45ed0ed151af7ab476ebc24101a7d4" in
  VerifyAuthorizationURL app
    (URL.set_RawQuery URL.empty ("code=abc&shop=acme&signature=forged&" +:+ mac))
  = (true, None).
Proof.
  intros app mac.
  rewrite (X6_callback_ignores_signature app _
             (URL.set_RawQuery URL.empty ("code=abc&shop=acme&" +:+ mac))).
  - vm_compute. reflexivity.
  - intros k Hk. unfold URL.Query. rewrite !ParseQuery_lookup. vm_compute url.pairs.
    rewrite !values_of_cons. simpl. repeat case_decide; simplify_eq; done.
Defined.

Lemma Split_nonempty (s : string) (sep : byte) : strings.Split s sep ≠ [].
Proof.
  destruct s as [|d s]; [done|]. cbn [strings.Split].
  destruct (strings.Split s sep); [done|]. by destruct (Ascii.eqb d sep).
Qed.

Lemma Split_app (s t : string) (sep : byte) :
  strings.Split (s +:+ String sep t) sep = strings.Split s sep ++ strings.Split t sep.
Proof.
  induction s as [|d s IH].
  - change ("" +:+ String sep t) with (String sep t). cbn [strings.Split].
    destruct (strings.Split t sep) eqn:Ht; [by apply Split_nonempty in Ht|].
    by rewrite Ascii.eqb_refl.
  - rewrite append_cons. cbn [strings.Split]. rewrite IH.
    destruct (strings.Split s sep) eqn:Hs; [by apply Split_nonempty in Hs|].
    cbn [app]. by destruct (Ascii.eqb d sep).
Qed.

(** The pairs of two queries joined by "&" are the pairs of the one
    followed by the pairs of the other. *)
Lemma pairs_app (q1 q2 : string) :
  url.pairs (q1 +:+ "&" +:+ q2) = url.pairs q1 ++ url.pairs q2.
Proof.
  unfold url.pairs. change ("&" +:+ q2) with (String "&" q2).
  by rewrite Split_app, omap_app.
Qed.

(** X7.  Pieces of a query that do not parse (a pair that holds a ';' or a
    malformed percent escape, an empty piece) are dropped by [u.Query()],
    whose error both verifiers discard: appending such pieces to the query
    of a URL changes the answer of neither verifier. *)
Theorem X7_unparsed_pieces_ignored
    (app : App) (u : URL.t) (extra : string)
    (range : url.Values → list (string * list string)) :
  url.pairs extra = [] →
  let u' := URL.set_RawQuery u (URL.RawQuery u +:+ "&" +:+ extra) in
  URL.Query u' = URL.Query u
  ∧ VerifyAuthorizationURL app u' = VerifyAuthorizationURL app u
  ∧ VerifySignature_range range app u' = VerifySignature_range range app u.
Proof.
  intros Hextra u'.
  assert (URL.Query u' = URL.Query u) as Hq.
  { unfold URL.Query, url.ParseQuery. cbn [u' URL.set_RawQuery URL.RawQuery].
    by rewrite pairs_app, Hextra, app_nil_r. }
  split; [done|]. split.
  - rewrite !VerifyAuthorizationURL_unfold. unfold AuthorizationURL_message. by rewrite Hq.
  - rewrite !VerifySignature_range_unfold. unfold Signature_message. by rewrite Hq.
Qed.

Lemma X7_unparsed_pieces_ignored_witness :
  let app := mkApp "k1" "hush" "https://app.example/cb" "read_products" in
  let mac := "hmac=d2b687f39d659fbf35cdf1c9b0c1388f9c45ed0ed151af7ab476ebc24101a7d4" in
  VerifyAuthorizationURL app
    (URL.set_RawQuery URL.empty
       (("code=abc&shop=acme&" +:+ mac) +:+ "&" +:+ "admin=1;x&redirect=%zz"))
  = (true, None).
Proof.
  intros app mac.
  destruct (X7_unparsed_pieces_ignored app
              (URL.set_RawQuery URL.empty ("code=abc&shop=acme&" +:+ mac))
              "admin=1;x&redirect=%zz" map_to_list) as (_ & H & _);
    [vm_compute; reflexivity|].
  cbn [URL.set_RawQuery URL.RawQuery URL.empty] in H. cbn [URL.set_RawQuery URL.empty].
  etrans; [exact H|]. vm_compute. reflexivity.
Defined.

(** ** Signing, then verifying *)

Lemma Query_Encode (u : URL.t) (v : url.Values) :
  (∀ k, v !! k ≠ Some []) → URL.Query (URL.set_RawQuery u (url.Encode v)) = v.
Proof. intros Hv. unfold URL.Query. by apply ParseQuery_Encode. Qed.

Lemma insert_nonempty_values (v : url.Values) (key value : string) :
  (∀ k, v !! k ≠ Some []) → ∀ k, <[key := [value]]> v !! k ≠ Some [].
Proof. apply Set_nonempty_values. Qed.

(** What [VerifyAuthorizationURL] does with the parameters [v] and the MAC
    [mac], sent as the query [Encode] writes for them. *)
Lemma VerifyAuthorizationURL_Encode (app : App) (u : URL.t) (v : url.Values) (mac : string) :
  (∀ k, v !! k ≠ Some []) → v !! "hmac" = None → v !! "signature" = None →
  VerifyAuthorizationURL app (URL.set_RawQuery u (url.Encode (<["hmac" := [mac]]> v)))
  = (VerifyMessage app (strings.Join (plain_pair <$> sorted_pairs v) "&") mac, None).
Proof.
  intros Hv Hh Hs. rewrite VerifyAuthorizationURL_unfold.
  unfold AuthorizationURL_message.
  rewrite Query_Encode by by apply insert_nonempty_values.
  unfold url.Get, url.Del. rewrite lookup_insert_eq, delete_insert_eq.
  rewrite (delete_id v "hmac"), (delete_id v "signature") by done.
  by rewrite QueryUnescape_Encode.
Qed.

(** X8.  Signing then verifying a callback.  For parameters that hold
    neither "hmac" nor "signature", the URL whose query is their form
    encoding together with hmac = the lower-case hex HMAC-SHA256, under the
    app secret, of the parameters written plainly as key=value, joined by
    "&" by ascending key, is accepted, with a nil error. *)
Theorem X8_callback_sign_verify (app : App) (u : URL.t) (v : url.Values) :
  (∀ k, v !! k ≠ Some []) → v !! "hmac" = None → v !! "signature" = None →
  let message := strings.Join (plain_pair <$> sorted_pairs v) "&" in
  let mac := hex.EncodeToString
               (hmac_sha256 (bytes_of (ApiSecret app)) (bytes_of message)) in
  VerifyAuthorizationURL app (URL.set_RawQuery u (url.Encode (<["hmac" := [mac]]> v)))
  = (true, None).
Proof.
  intros Hv Hh Hs message mac. rewrite VerifyAuthorizationURL_Encode by done.
  f_equal. apply VerifyMessage_valid.
Qed.

Lemma X8_callback_sign_verify_witness :
  let app := mkApp "k1" "hush" "https://app.example/cb" "read_products" in
  let v : url.Values := {[ "shop" := ["acme"]; "code" := ["abc"] ]} in
  url.Encode (<["hmac" := ["d2b687f39d659fbf35cdf1c9b0c1388f9c45ed0ed151af7ab476ebc24101a7d4"]]> v)
  = "code=abc&hmac=d2b687f39d659fbf35cdf1c9b0c1388f9c45ed0ed151af7ab476ebc24101a7d4&shop=acme"
  ∧ VerifyAuthorizationURL app
      (URL.set_RawQuery URL.empty
         "code=abc&hmac=d2b687f39d659fbf35cdf1c9b0c1388f9c45ed0ed151af7ab476ebc24101a7d4&shop=acme")
    = (true, None).
Proof.
  intros app v.
  assert (url.Encode
            (<["hmac" := ["d2b687f39d659fbf35cdf1c9b0c1388f9c45ed0ed151af7ab476ebc24101a7d4"]]> v)
          = "code=abc&hmac=d2b687f39d659fbf35cdf1c9b0c1388f9c45ed0ed151af7ab476ebc24101a7d4&shop=acme")
    as He by (vm_compute; reflexivity).
  split; [exact He|]. rewrite <- He.
  pose proof (X8_callback_sign_verify app URL.empty v) as H.
  cbn zeta in H.
  assert (hex.EncodeToString (hmac_sha256 (bytes_of (ApiSecret app))
            (bytes_of (strings.Join (plain_pair <$> sorted_pairs v) "&")))
          = "d2b687f39d659fbf35cdf1c9b0c1388f9c45ed0ed151af7ab476ebc24101a7d4") as Hmac
    by (vm_compute; reflexivity).
  rewrite Hmac in H. clear Hmac.
  apply H.
  - intros k. subst v. rewrite lookup_insert. case_decide; [done|].
    rewrite lookup_singleton. by case_decide.
  - vm_compute. reflexivity.
  - vm_compute. reflexivity.
Defined.

(** X9.  Signing then verifying a proxy request.  For parameters that do
    not hold "signature", the URL whose query is their form encoding
    together with signature = the lower-case hex HMAC-SHA256, under the app
    secret, of the sorted key=value strings (values joined by commas)
    concatenated, is accepted, whatever the order the map is ranged over. *)
Theorem X9_proxy_sign_verify
    (range : url.Values → list (string * list string))
    (app : App) (u : URL.t) (v : url.Values) :
  (∀ m, range m ≡ₚ map_to_list m) →
  (∀ k, v !! k ≠ Some []) → v !! "signature" = None →
  let message := foldr String.append "" (sort_Strings (key_value <$> map_to_list v)) in
  let sig := hex.EncodeToString
               (hmac_sha256 (bytes_of (ApiSecret app)) (bytes_of message)) in
  VerifySignature_range range app
    (URL.set_RawQuery u (url.Encode (<["signature" := [sig]]> v))) = true.
Proof.
  intros Hrange Hv Hs message sig.
  rewrite VerifySignature_range_unfold, Signature_message_spec by done.
  rewrite Query_Encode by by apply insert_nonempty_values.
  unfold url.Get, url.Del. rewrite lookup_insert_eq, delete_insert_eq, delete_id by done.
  by apply hmacSHA256_true.
Qed.

Lemma X9_proxy_sign_verify_witness :
  let app := mkApp "k1" "hush" "https://app.example/cb" "read_products" in
  let v : url.Values := {[ "shop" := ["acme"]; "extra" := ["1"; "2"] ]} in
  VerifySignature app
    (URL.set_RawQuery URL.empty
       (url.Encode
          (<["signature" := ["40fe8e36c345fe5cc5a1488d6ab75cc2830e5a2bd17c551b0ec865a608f7e525"]]> v)))
  = true.
Proof.
  intros app v.
  pose proof (X9_proxy_sign_verify map_to_list app URL.empty v) as H.
  cbn zeta in H.
  assert (hex.EncodeToString (hmac_sha256 (bytes_of (ApiSecret app))
            (bytes_of (foldr String.append "" (sort_Strings (key_value <$> map_to_list v)))))
          = "40fe8e36c345fe5cc5a1488d6ab75cc2830e5a2bd17c551b0ec865a608f7e525") as Hmac
    by (vm_compute; reflexivity).
  rewrite Hmac in H. clear Hmac.
  apply H; [done | | vm_compute; reflexivity].
  intros k. subst v. rewrite lookup_insert. case_decide; [done|].
  rewrite lookup_singleton. by case_decide.
Defined.

(** ** Parameter sets that sign the same message *)

Lemma key_value_joined (m : url.Values) :
  key_value <$> map_to_list m
  = (fun kv : string * string => kv.1 +:+ "=" +:+ kv.2)
      <$> map_to_list ((fun vs => strings.Join vs ",") <$> m).
Proof.
  rewrite map_to_list_fmap, <- list_fmap_compose. apply list_fmap_ext.
  by intros i [k vs] _.
Qed.

(** X10.  [VerifySignature] sees of each key only its values joined by
    commas: two URLs with the same "signature" whose parameters agree once
    the values of each key are joined get the same signing input and the
    same answer.  Several values of a key are not told apart from one value
    that holds them separated by commas. *)
Theorem X10_proxy_values_joined
    (app : App) (u1 u2 : URL.t)
    (range1 range2 : url.Values → list (string * list string)) :
  (∀ m, range1 m ≡ₚ map_to_list m) → (∀ m, range2 m ≡ₚ map_to_list m) →
  (fun vs => strings.Join vs ",") <$> URL.Query u1
  = (fun vs => strings.Join vs ",") <$> URL.Query u2 →
  url.Get (URL.Query u1) "signature" = url.Get (URL.Query u2) "signature" →
  Signature_message range1 u1 = Signature_message range2 u2
  ∧ VerifySignature_range range1 app u1 = VerifySignature_range range2 app u2.
Proof.
  intros Hr1 Hr2 Hjoin Hsig.
  assert (Signature_message range1 u1 = Signature_message range2 u2) as Hm.
  { rewrite !Signature_message_spec by done. unfold url.Del.
    by rewrite !key_value_joined, !fmap_delete, Hjoin. }
  split; [done|]. by rewrite !VerifySignature_range_unfold, Hm, Hsig.
Qed.

(** a=1&a=2 and a=1%2C2 under the signature of "a=1,2". *)
Lemma X10_proxy_values_joined_witness :
  let app := mkApp "k1" "hush" "https://app.example/cb" "read_products" in
  let sig :=
    "signature=b8f91c3123e7bc4ed7b52819a6ff2b7f69df367b82f5106139d1c9461983af83" in
  let u1 := URL.set_RawQuery URL.empty ("a=1&a=2&" +:+ sig) in
  let u2 := URL.set_RawQuery URL.empty ("a=1%2C2&" +:+ sig) in
  VerifySignature app u1 = true ∧ VerifySignature app u2 = true.
Proof.
  intros app sig u1 u2.
  destruct (X10_proxy_values_joined app u1 u2 map_to_list map_to_list) as [_ H];
    [done | done | vm_compute; reflexivity | vm_compute; reflexivity |].
  assert (VerifySignature app u1 = true) as H1 by (vm_compute; reflexivity).
  split; [exact H1|]. unfold VerifySignature in *. by rewrite <- H.
Defined.

Lemma sort_Strings_sorted_id (l : list string) :
  StronglySorted String.le l → sort_Strings l = l.
Proof.
  intros Hl. apply (StronglySorted_unique String.le); [apply sort_Strings_sorted | done |].
  apply merge_sort_Permutation.
Qed.

Lemma sorted_pairs_one (k x : string) : sorted_pairs {[ k := [x] ]} = [(k, x)].
Proof.
  unfold sorted_pairs. rewrite map_to_list_singleton. cbn [map fst].
  rewrite sort_Strings_sorted_id by (repeat constructor).
  cbn [flat_map]. by rewrite lookup_singleton_eq.
Qed.

Lemma sorted_pairs_two (k k' x x' : string) :
  k ≠ k' → String.le k k' →
  sorted_pairs (<[ k := [x] ]> {[ k' := [x'] ]}) = [(k, x); (k', x')].
Proof.
  intros Hne Hle. unfold sorted_pairs.
  assert (map fst (map_to_list (<[ k := [x] ]> ({[ k' := [x'] ]} : url.Values)))
          ≡ₚ [k; k']) as Hperm.
  { rewrite map_to_list_insert by by rewrite lookup_singleton_ne.
    by rewrite map_to_list_singleton. }
  rewrite (sort_Strings_Permutation _ _ Hperm).
  rewrite sort_Strings_sorted_id by (repeat constructor; done).
  cbn [flat_map]. rewrite lookup_insert_eq, lookup_insert_ne, lookup_singleton_eq by done.
  done.
Qed.

(** X11.  The message [VerifyAuthorizationURL] checks does not determine
    the parameters.  Because the whole encoded query is percent-decoded
    before it is signed, a value that holds "&k'=x'" signs the same message
    as a second parameter k' = x': for keys k before k' (neither of them
    "hmac" or "signature"), the URL with the one parameter
    k = x&k'=x' and the URL with the two parameters k = x, k' = x' get the same
    answer for every MAC. *)
Theorem X11_callback_message_ambiguous
    (app : App) (u : URL.t) (k k' x x' mac : string) :
  k ≠ k' → String.le k k' →
  k ≠ "hmac" → k ≠ "signature" → k' ≠ "hmac" → k' ≠ "signature" →
  let one : url.Values := {[ k := [x +:+ "&" +:+ k' +:+ "=" +:+ x'] ]} in
  let two : url.Values := <[ k := [x] ]> {[ k' := [x'] ]} in
  VerifyAuthorizationURL app (URL.set_RawQuery u (url.Encode (<["hmac" := [mac]]> one)))
  = VerifyAuthorizationURL app (URL.set_RawQuery u (url.Encode (<["hmac" := [mac]]> two))).
Proof.
  intros Hne Hle Hkh Hks Hkh' Hks' one two.
  rewrite !VerifyAuthorizationURL_Encode.
  - subst one two. rewrite sorted_pairs_one, sorted_pairs_two by done.
    do 2 f_equal. cbn [fmap list_fmap strings.Join]. unfold plain_pair. cbn [fst snd].
    by rewrite !append_assoc.
  - intros j. subst two. rewrite lookup_insert. case_decide; [done|].
    rewrite lookup_singleton. by case_decide.
  - subst two. by rewrite lookup_insert_ne, lookup_singleton_ne.
  - subst two. by rewrite lookup_insert_ne, lookup_singleton_ne.
  - intros j. subst one. rewrite lookup_singleton. by case_decide.
  - subst one. by rewrite lookup_singleton_ne.
  - subst one. by rewrite lookup_singleton_ne.
Qed.

(** The MAC of "a=1&b=2", issued for a = 1 and b = 2, verifies the single
    parameter a = 1&b=2. *)
Lemma X11_callback_message_ambiguous_witness :
  let app := mkApp "k1" "hush" "https://app.example/cb" "read_products" in
  let mac := "ef1537cfd31c3c21d86962bf28ec3637c4defa233ca9aa1be8ddf8e7b3c4470a" in
  url.Encode (<["hmac" := [mac]]> {[ "a" := ["1&b=2"] ]}) = "a=1%26b%3D2&hmac=" +:+ mac
  ∧ VerifyAuthorizationURL app (URL.set_RawQuery URL.empty ("a=1%26b%3D2&hmac=" +:+ mac))
    = (true, None).
Proof.
  intros app mac.
  assert (url.Encode (<["hmac" := [mac]]> {[ "a" := ["1&b=2"] ]})
          = "a=1%26b%3D2&hmac=" +:+ mac) as He by (vm_compute; reflexivity).
  split; [exact He|]. rewrite <- He.
  etrans;
    [exact (X11_callback_message_ambiguous app URL.empty "a" "b" "1" "2" mac
              ltac:(done) ltac:(vm_compute; reflexivity) ltac:(done) ltac:(done)
              ltac:(done) ltac:(done))|].
  vm_compute. reflexivity.
Defined.

(** ** [AuthorizeUrl] on a well-formed base URL *)

(** X12.  When the base URL of the shop is https:// followed by a host name
    of letters, digits, '-' and '.', [AuthorizeUrl] returns that base URL
    unchanged, followed by /admin/oauth/authorize and the four parameters
    client_id, redirect_uri, scope and state in this order, each value
    query-escaped.  Nothing of the app secret is in the URL. *)
Theorem X12_AuthorizeUrl_string
    (ShopBaseUrl : string → string) (app : App) (shopName state host : string) :
  ShopBaseUrl shopName = "https://" +:+ host →
  hostname host = true →
  AuthorizeUrl ShopBaseUrl app shopName state
  = Some ("https://" +:+ host +:+ "/admin/oauth/authorize?client_id="
          +:+ url.QueryEscape (ApiKey app)
          +:+ "&redirect_uri=" +:+ url.QueryEscape (RedirectUrl app)
          +:+ "&scope=" +:+ url.QueryEscape (Scope app)
          +:+ "&state=" +:+ url.QueryEscape state).
Proof.
  intros Hbase Hh. unfold AuthorizeUrl, AuthorizeUrl_shopUrl.
  rewrite Hbase, Parse_https_host by done.
  unfold URL.Query.
  cbn [URL.set_Path URL.set_RawQuery URL.Scheme URL.Opaque URL.User URL.Host URL.Path
       URL.RawPath URL.OmitHost URL.ForceQuery URL.RawQuery URL.Fragment URL.RawFragment].
  change (url.ParseQuery "") with (∅ : url.Values).
  rewrite Encode_Join.
  assert (strings.Join
            (escaped_pair <$>
             sorted_pairs
               (url.Set_ (url.Set_ (url.Set_ (url.Set_ ∅ "client_id" (ApiKey app))
                  "redirect_uri" (RedirectUrl app)) "scope" (Scope app)) "state" state))
            "&"
          = "client_id=" +:+ url.QueryEscape (ApiKey app)
            +:+ "&redirect_uri=" +:+ url.QueryEscape (RedirectUrl app)
            +:+ "&scope=" +:+ url.QueryEscape (Scope app)
            +:+ "&state=" +:+ url.QueryEscape state) as -> by reflexivity.
  unfold URL.set_Path, URL.set_RawQuery.
  cbn [URL.Scheme URL.Opaque URL.User URL.Host URL.Path URL.RawPath URL.OmitHost
       URL.ForceQuery URL.RawQuery URL.Fragment URL.RawFragment
       fmap option_fmap option_map].
  rewrite String_https_host by done. reflexivity.
Qed.

(** Shop "acme", with a space in the API key, a comma in the scope and an
    ampersand in the state. *)
Lemma X12_AuthorizeUrl_string_witness :
  let app := mkApp "k 1" "hush" "https://app.example/cb" "read_products,write_orders" in
  AuthorizeUrl (ShopBaseUrl_spec (fun _ => "")) app "acme" "x&y"
  = Some ("https://acme.myshopify.com/admin/oauth/authorize"
          +:+ "?client_id=k+1&redirect_uri=https%3A%2F%2Fapp.example%2Fcb"
          +:+ "&scope=read_products%2Cwrite_orders&state=x%26y").
Proof.
  intros app.
  etrans; [exact (X12_AuthorizeUrl_string (ShopBaseUrl_spec (fun _ => "")) app "acme" "x&y"
                    "acme.myshopify.com" ltac:(reflexivity) ltac:(reflexivity))|].
  vm_compute. reflexivity.
Defined.
